(** * Lead-score report generation: a shallow embedding of [Lead-Score.py]

    The development follows the report-generation pipeline of the service:
    score extraction from the survey payload, maturity-phase classification,
    the circle rating, the advice and support look-up tables, the greedy
    word wrapping of table cells, the text cleaning pass, placeholder
    substitution and the placement of rendered images on template slides.

    Conventions of the embedding.
    - A Python [str] is a list of Unicode code points ([pystr]); literals are
      written as UTF-8 strings and decoded by [py], so [len] counts code
      points as Python does.
    - A Python exception is a value of [exn]; code that can raise returns
      [result].  The handlers of the source all log and re-raise, so an
      exception raised inside a function is the function's result.
    - A JSON payload is a finite map from keys to [jvalue].
    - Python floats are idealised as exact rationals ([Q]) wherever the
      source computes with them. *)

From Corelib Require PrimFloat.
From Stdlib Require Import ZArith QArith Qround Lqa Lia List String Ascii DecimalString.
From stdpp Require Import gmap strings list fin_maps option.

Local Open Scope Z_scope.

(** ** Python strings *)

Module PyStr.

Definition pystr := list N.

(** UTF-8 decoding of a literal: one code point per encoded character. *)
Fixpoint utf8_decode (bs : list N) : pystr :=
  match bs with
  | [] => []
  | b0 :: r0 =>
      if (b0 <? 128)%N then b0 :: utf8_decode r0
      else
        match r0 with
        | [] => []
        | b1 :: r1 =>
            if (b0 <? 224)%N
            then ((b0 mod 32) * 64 + b1 mod 64)%N :: utf8_decode r1
            else
              match r1 with
              | [] => []
              | b2 :: r2 =>
                  if (b0 <? 240)%N
                  then ((b0 mod 16) * 4096 + (b1 mod 64) * 64 + b2 mod 64)%N
                         :: utf8_decode r2
                  else
                    match r2 with
                    | [] => []
                    | b3 :: r3 =>
                        ((b0 mod 8) * 262144 + (b1 mod 64) * 4096
                         + (b2 mod 64) * 64 + b3 mod 64)%N :: utf8_decode r3
                    end
              end
        end
  end.

Definition py (s : string) : pystr :=
  utf8_decode (List.map N_of_ascii (list_ascii_of_string s)).
Arguments py : simpl never.

Definition SPACE : N := 32.
Definition NEWLINE : N := 10.
Definition DOT : N := 46.

(** [str.isspace] for one character: the code points CPython treats as
    white space in [str.strip] and in [int]. *)
Definition isspace (c : N) : bool :=
  ((9 <=? c) && (c <=? 13) || (28 <=? c) && (c <=? 32)
   || (c =? 133) || (c =? 160) || (c =? 5760)
   || (8192 <=? c) && (c <=? 8202)
   || (c =? 8232) || (c =? 8233) || (c =? 8239) || (c =? 8287)
   || (c =? 12288))%N.

Fixpoint lstrip (s : pystr) : pystr :=
  match s with
  | [] => []
  | c :: s' => if isspace c then lstrip s' else s
  end.

Definition rstrip (s : pystr) : pystr := rev (lstrip (rev s)).

(** [s.strip()] *)
Definition strip (s : pystr) : pystr := rstrip (lstrip s).

(** [s.split(sep)] for a one-character separator: never the empty list,
    empty fields are kept. *)
Fixpoint split (sep : N) (s : pystr) : list pystr :=
  match s with
  | [] => [[]]
  | c :: s' =>
      if (c =? sep)%N then [] :: split sep s'
      else
        match split sep s' with
        | w :: ws => (c :: w) :: ws
        | [] => [[c]]
        end
  end.

(** [sep.join(l)] *)
Fixpoint join (sep : pystr) (l : list pystr) : pystr :=
  match l with
  | [] => []
  | [x] => x
  | x :: r => x ++ sep ++ join sep r
  end.

(** [old] is a prefix of [s]. *)
Fixpoint starts_with (old s : pystr) : bool :=
  match old, s with
  | [], _ => true
  | _ :: _, [] => false
  | a :: old', b :: s' => (a =? b)%N && starts_with old' s'
  end.

(** [old in s] *)
Fixpoint contains (old s : pystr) : bool :=
  starts_with old s
  || match s with
     | [] => false
     | _ :: s' => contains old s'
     end.

(** [s.endswith(suffix)] *)
Definition endswith (s suffix : pystr) : bool :=
  starts_with (rev suffix) (rev s).

(** [s.replace(old, new)] for a non-empty [old]: occurrences are found
    from the left and do not overlap.  [skip] counts the characters of a
    matched occurrence that are still to be passed over. *)
Fixpoint replace_from (old new : pystr) (skip : nat) (s : pystr) : pystr :=
  match s with
  | [] => []
  | c :: s' =>
      match skip with
      | S k => replace_from old new k s'
      | O =>
          if starts_with old s
          then new ++ replace_from old new (Nat.pred (length old)) s'
          else c :: replace_from old new 0 s'
      end
  end.

Definition replace (old new s : pystr) : pystr := replace_from old new 0 s.

(** [str(n)] for an integer. *)
Definition str_of_Z (z : Z) : pystr :=
  py (NilZero.string_of_int (Z.to_int z)).

End PyStr.
Import PyStr.

(** ** Exceptions and results *)

Inductive exn : Set :=
  ValueError | TypeError | OverflowError | IndexError | KeyError.

Inductive result (A : Type) : Type :=
| Ok (a : A)
| Raise (e : exn).
Arguments Ok {A} a.
Arguments Raise {A} e.

#[global] Instance result_ret : MRet result := fun _ a => Ok a.
#[global] Instance result_bind : MBind result := fun _ _ f m =>
  match m with
  | Ok a => f a
  | Raise e => Raise e
  end.
#[global] Instance result_fmap : FMap result := fun _ _ f m =>
  match m with
  | Ok a => Ok (f a)
  | Raise e => Raise e
  end.


(** [IndexError] is what indexing a slide that does not exist raises. *)
Definition no_index_error {A} (m : result A) : Prop := m ≠ Raise IndexError.

(** ** JSON values and the conversions [int] and [float] *)

Inductive pyfloat : Type :=
| Finite (q : Q)
| Infinite
| NaN.

Inductive jvalue : Type :=
| JStr (s : pystr)
| JInt (n : Z)
| JFloat (f : pyfloat)
| JBool (b : bool)
| JNull
| JCompound.

Abbreviation payload_t := (gmap pystr jvalue).

(** [payload.get(key, default)] *)
Definition payload_get (payload : payload_t) (key : pystr) (dflt : jvalue) : jvalue :=
  default dflt (payload !! key).

Inductive lex_state : Set := AtStart | AfterDigit | AfterUnderscore.

Definition digit_val (c : N) : option Z :=
  if ((48 <=? c) && (c <=? 57))%N then Some (Z.of_N c - 48) else None.

(** Decimal digits, single underscores allowed between digits. *)
Fixpoint parse_digits (st : lex_state) (acc : Z) (s : pystr) : option Z :=
  match s with
  | [] => match st with AfterDigit => Some acc | _ => None end
  | c :: s' =>
      match digit_val c with
      | Some d => parse_digits AfterDigit (10 * acc + d) s'
      | None =>
          if (c =? 95)%N
          then match st with
               | AfterDigit => parse_digits AfterUnderscore acc s'
               | _ => None
               end
          else None
      end
  end.

(** [int(s)] for a string, base ten: surrounding white space, an optional
    sign, then digits.  Only the ASCII digits are recognised. *)
Definition int_of_str (s : pystr) : option Z :=
  match strip s with
  | 43%N :: r => parse_digits AtStart 0 r
  | 45%N :: r => Z.opp <$> parse_digits AtStart 0 r
  | r => parse_digits AtStart 0 r
  end.

(** [int(x)] for a float truncates towards zero. *)
Definition truncate (q : Q) : Z := Z.quot (Qnum q) (Z.pos (Qden q)).

(** [int(v)] *)
Definition py_int (v : jvalue) : result Z :=
  match v with
  | JStr s => match int_of_str s with
              | Some n => Ok n
              | None => Raise ValueError
              end
  | JInt n => Ok n
  | JFloat (Finite q) => Ok (truncate q)
  | JFloat Infinite => Raise OverflowError
  | JFloat NaN => Raise ValueError
  | JBool b => Ok (if b then 1 else 0)
  | JNull | JCompound => Raise TypeError
  end.


(** ** Scoring and classification *)

(** The pure part of [get_transitiefase], after [total_sum = int(total_sum)]. *)
Definition transitiefase_of (total_sum : Z) : pystr :=
  if (0 <=? total_sum) && (total_sum <=? 14) then py "Startfase"
  else if (15 <=? total_sum) && (total_sum <=? 22) then py "Aan de slag"
  else if (23 <=? total_sum) && (total_sum <=? 30) then py "Op de kaart"
  else if (31 <=? total_sum) && (total_sum <=? 36) then py "In control"
  else if (37 <=? total_sum) && (total_sum <=? 40) then py "Voorloper"
  else py "Onbekend".

Definition get_transitiefase (total_sum : jvalue) : result pystr :=
  total_sum ← py_int total_sum;
  mret (transitiefase_of total_sum).

(** The maturity phases of [create_score_breakdown_chart]. *)
Record phase : Type := {
  phase_name : pystr;
  phase_range : pystr;
  phase_description : pystr;
  phase_focus : pystr;
  phase_color : pystr
}.

Definition phases : list phase := [
  {| phase_name := py "Startfase"; phase_range := py "(0-14 pnt)";
     phase_description := py "Eerste bewustwording, nog geen structuur";
     phase_focus := py "Begrip en taal ontwikkelen"; phase_color := py "#FFCDD2" |};
  {| phase_name := py "Aan de slag"; phase_range := py "(15-22 pnt)";
     phase_description := py "Initiatieven starten, weinig samenhang";
     phase_focus := py "Richting en partners bepalen"; phase_color := py "#FFE0B2" |};
  {| phase_name := py "Op de kaart"; phase_range := py "(23-30 pnt)";
     phase_description := py "Structuur, rollen en data zijn aanwezig";
     phase_focus := py "Governance en procesafspraken"; phase_color := py "#DCEDC8" |};
  {| phase_name := py "In control"; phase_range := py "(31-36 pnt)";
     phase_description := py "Sturing op uitkomsten en processen";
     phase_focus := py "PDCA-cyclus en datasturing"; phase_color := py "#C8E6C9" |};
  {| phase_name := py "Voorloper"; phase_range := py "(37-40 pnt)";
     phase_description := py "Passende zorg is geborgd en opgeschaald";
     phase_focus := py "Leren, waardesturing, opschaling"; phase_color := py "#A5D6A7" |}
].

(** Index into [phases] of the highlighted bar. *)
Definition current_phase (total_score : Z) : nat :=
  if 37 <=? total_score then 4%nat
  else if 31 <=? total_score then 3%nat
  else if 23 <=? total_score then 2%nat
  else if 15 <=? total_score then 1%nat
  else 0%nat.

(** *** Circle rating *)

Inductive glyph : Set := Filled | HalfFilled | Empty.

(** The rating string: the circle glyphs, then the normalised score that the
    source appends as [" (x.x/5)"]. *)
Record star_rating : Type := {
  glyphs : list glyph;
  shown_score : Q
}.

(** ['c' * n]: a negative count gives the empty string. *)
Definition times {A} (c : A) (n : Z) : list A := repeat c (Z.to_nat n).

Definition generate_star_rating (score : Q) : star_rating :=
  let normalized_score := ((score / 10) * 5)%Q in
  let full_circles := truncate normalized_score in
  let remainder := (normalized_score - inject_Z full_circles)%Q in
  let half_circle := if Qle_bool (1 # 2) remainder then 1 else 0 in
  let empty_circles := 5 - full_circles - half_circle in
  {| glyphs := times Filled full_circles
                 ++ (if half_circle =? 0 then [] else [HalfFilled])
                 ++ times Empty empty_circles;
     shown_score := normalized_score |}.

(** *** Low-scoring domains *)

Definition keywords : list (pystr * pystr) := [
  (py "Governance_Q1_Numeric", py "Visie");
  (py "Governance_Q2_Numeric", py "Leiderschap");
  (py "Structuur_Q1_Numeric", py "Samenwerking");
  (py "Structuur_Q2_Numeric", py "Tools");
  (py "Proces_Q1_Numeric", py "Patiëntgericht");
  (py "Proces_Q2_Numeric", py "Leren");
  (py "Uitkomsten_en_sturing_Q1_Numeric", py "Uitkomsten");
  (py "Uitkomsten_en_sturing_Q2_Numeric", py "Data")
].

(** The loop of [get_lowest_scoring_domains] over the remaining [keys],
    with the list built so far. *)
Fixpoint low_scoring_loop (payload : payload_t) (keys : list (pystr * pystr))
    (low_scoring : list pystr) : result (list pystr) :=
  match keys with
  | [] => Ok low_scoring
  | (key, keyword) :: keys' =>
      score ← py_int (payload_get payload key (JInt 0));
      low_scoring_loop payload keys'
        (if (score =? 1) || (score =? 2)
         then low_scoring ++ [keyword ++ py ": " ++ str_of_Z score]
         else low_scoring)
  end.

Definition get_lowest_scoring_domains (payload : payload_t) : result pystr :=
  low_scoring ← low_scoring_loop payload keywords [];
  mret (match low_scoring with
        | [] => py "Geen lage scores"
        | _ => join (py ", ") low_scoring
        end).

(** The listing as its description words it: the value of a numeric field
    (0 when the field is absent), the fields that score 1 or 2 in the fixed
    order, each shown as ["<keyword>: <score>"]. *)
Definition numeric_score (payload : payload_t) (key : pystr) : Z :=
  match py_int (payload_get payload key (JInt 0)) with
  | Ok n => n
  | Raise _ => 0
  end.

Definition scores_low (payload : payload_t) (kk : pystr * pystr) : Prop :=
  numeric_score payload kk.1 = 1 ∨ numeric_score payload kk.1 = 2.

#[global] Instance scores_low_dec payload kk : Decision (scores_low payload kk).
Proof. unfold scores_low. apply _. Defined.

Definition low_scoring_spec (payload : payload_t) : pystr :=
  let low := filter (scores_low payload) keywords in
  match low with
  | [] => py "Geen lage scores"
  | _ => join (py ", ")
           ((λ kk, kk.2 ++ py ": " ++ str_of_Z (numeric_score payload kk.1)) <$> low)
  end.

(** ** Insertion-ordered dictionaries

    [subdomain_scores] is a Python [dict] that is iterated after it is
    filled: assigning to a key that is present keeps the key's position. *)

Fixpoint dict_set {V} (k : pystr) (v : V) (d : list (pystr * V)) : list (pystr * V) :=
  match d with
  | [] => [(k, v)]
  | (k', v') :: d' =>
      if decide (k' = k) then (k, v) :: d' else (k', v') :: dict_set k v d'
  end.

Fixpoint dict_get {V} (k : pystr) (d : list (pystr * V)) : option V :=
  match d with
  | [] => None
  | (k', v') :: d' => if decide (k' = k) then Some v' else dict_get k d'
  end.

Definition nonempty (s : pystr) : bool :=
  match s with [] => false | _ => true end.

(** ** Greedy word wrapping of a table cell *)

(** The loop [for word in words] with its two variables. *)
Fixpoint wrap_loop (limit : nat) (words : list pystr)
    (current_line : pystr) (wrapped_lines : list pystr) : list pystr * pystr :=
  match words with
  | [] => (wrapped_lines, current_line)
  | word :: words' =>
      let test_line :=
        if nonempty current_line then current_line ++ [SPACE] ++ word else word in
      if (length test_line <=? limit)%nat
      then wrap_loop limit words' test_line wrapped_lines
      else wrap_loop limit words' word
             (if nonempty current_line
              then wrapped_lines ++ [current_line] else wrapped_lines)
  end.

Definition wrap_words (limit : nat) (data : pystr) : list pystr :=
  let '(wrapped_lines, current_line) := wrap_loop limit (split SPACE data) [] [] in
  if nonempty current_line then wrapped_lines ++ [current_line] else wrapped_lines.

(** The text lines drawn in a wrapping column: the cell is wrapped only when
    it is longer than [limit]. *)
Definition cell_lines (limit : nat) (data : pystr) : list pystr :=
  if (limit <? length data)%nat then wrap_words limit data else [data].

(** The same loop as it is run beforehand to size the row: it only counts. *)
Fixpoint count_loop (limit : nat) (words : list pystr)
    (current_line : pystr) (line_count : nat) : nat * pystr :=
  match words with
  | [] => (line_count, current_line)
  | word :: words' =>
      let test_line :=
        if nonempty current_line then current_line ++ [SPACE] ++ word else word in
      if (length test_line <=? limit)%nat
      then count_loop limit words' test_line line_count
      else count_loop limit words' word
             (if nonempty current_line then S line_count else line_count)
  end.

Definition max_lines (limit : nat) (text : pystr) : nat :=
  if (limit <? length text)%nat
  then
    let '(line_count, current_line) := count_loop limit (split SPACE text) [] 0%nat in
    Nat.max 1 (if nonempty current_line then S line_count else line_count)
  else 1%nat.

(** A drawn line is right for the words of its cell: it is some consecutive
    words joined by single spaces, and it fits in [limit] characters unless
    it is one word that is longer than that by itself. *)
Definition wrapped_line_ok (limit : nat) (words : list pystr) (line : pystr) : Prop :=
  ∃ before ws after,
    words = before ++ ws ++ after
    ∧ ws ≠ []
    ∧ line = join [SPACE] ws
    ∧ ((length line ≤ limit)%nat ∨ ∃ w, ws = [w] ∧ (limit < length w)%nat).

(** What the loop knows of the line it is filling, when the words [done]
    have been read. *)
Definition pending_line_ok (limit : nat) (done : list pystr) (current : pystr) : Prop :=
  current = []
  ∨ ∃ before ws,
      done = before ++ ws
      ∧ ws ≠ []
      ∧ current = join [SPACE] ws
      ∧ ((length current ≤ limit)%nat ∨ ∃ w, ws = [w] ∧ (limit < length w)%nat).

Definition ADVICE_WIDTH : nat := 45.
Definition DESCRIPTION_WIDTH : nat := 60.

(** ** Score extraction shared by the two recommendation tables *)

(** [for field, subdomain in field_mapping.items()]: a present non-blank
    string is parsed up to its first dot; [otherwise] is what the source
    does with any other present value. *)
Fixpoint text_scores_loop (payload : payload_t)
    (otherwise : pystr → list (pystr * Z) → result (list (pystr * Z)))
    (fields : list (pystr * pystr)) (subdomain_scores : list (pystr * Z))
    : result (list (pystr * Z)) :=
  match fields with
  | [] => Ok subdomain_scores
  | (field, subdomain) :: fields' =>
      subdomain_scores' ←
        match payload !! field with
        | None => Ok subdomain_scores
        | Some (JStr score_text) =>
            if nonempty (strip score_text)
            then
              score ← py_int (JStr (hd [] (split DOT score_text)));
              mret (dict_set subdomain score subdomain_scores)
            else otherwise field subdomain_scores
        | Some _ => otherwise field subdomain_scores
        end;
      text_scores_loop payload otherwise fields' subdomain_scores'
  end.

(** [for field, subdomain in numeric_fields.items()] *)
Fixpoint numeric_scores_loop (payload : payload_t)
    (fields : list (pystr * pystr)) (subdomain_scores : list (pystr * Z))
    : result (list (pystr * Z)) :=
  match fields with
  | [] => Ok subdomain_scores
  | (field, subdomain) :: fields' =>
      match payload !! field with
      | None => numeric_scores_loop payload fields' subdomain_scores
      | Some v =>
          score ← py_int v;
          numeric_scores_loop payload fields' (dict_set subdomain score subdomain_scores)
      end
  end.

(** The image a table renderer produces: the congratulatory message, or the
    table with its data rows. *)
Inductive table_image (row : Type) : Type :=
| Congratulations (message : pystr)
| Table (headers : list pystr) (rows : list row).
Arguments Congratulations {row} message.
Arguments Table {row} headers rows.

Definition data_rows {row} (img : table_image row) : list row :=
  match img with
  | Congratulations _ => []
  | Table _ rows => rows
  end.

(** ** The recommendations table (slide 7) *)

Module Recommendations.

Definition field_mapping : list (pystr * pystr) := [
  (py "Governance_Q1", py "Visie op passende zorg");
  (py "Governance_Q2", py "Leiderschap en eigenaarschap");
  (py "Structuur_Q1", py "Regionale samenwerking");
  (py "Structuur_Q2", py "Tools en platforms");
  (py "Proces_Q1", py "Patiëntgericht procesontwerp");
  (py "Proces_Q2", py "Leren en verbeteren");
  (py "Uitkomsten_en_sturing_Q1", py "Outcomegericht werken");
  (py "Uitkomsten_en_sturing_Q2", py "Monitoring en besluitvorming")
].

Definition numeric_fields : list (pystr * pystr) := [
  (py "Structuur_Q1_Numeric", py "Regionale samenwerking");
  (py "Structuur_Q2_Numeric", py "Tools en platforms");
  (py "Uitkomsten_en_sturing_Q1_Numeric", py "Outcomegericht werken");
  (py "Uitkomsten_en_sturing_Q2_Numeric", py "Monitoring en besluitvorming")
].

(** The [elif] of the first loop: a key of [field_mapping] that ends in
    [_Numeric] and whose base name is a key as well. *)
Definition numeric_suffix_branch (payload : payload_t) (field : pystr)
    (subdomain_scores : list (pystr * Z)) : result (list (pystr * Z)) :=
  if endswith field (py "_Numeric")
     && bool_decide (is_Some (dict_get (replace (py "_Numeric") [] field) field_mapping))
  then
    match payload !! field with
    | None => Raise KeyError
    | Some v =>
        score ← py_int v;
        let base_field := replace (py "_Numeric") [] field in
        mret (match dict_get base_field field_mapping with
              | Some subdomain => dict_set subdomain score subdomain_scores
              | None => subdomain_scores
              end)
    end
  else Ok subdomain_scores.

(** The score of each subdomain, in the order the table lists them. *)
Definition subdomain_scores (payload : payload_t) : result (list (pystr * Z)) :=
  scores ← text_scores_loop payload (numeric_suffix_branch payload) field_mapping [];
  numeric_scores_loop payload numeric_fields scores.

Record advice_entry : Type := {
  advice : pystr;
  support : pystr;
  support_type : pystr
}.

Definition advice_table : list (pystr * Z * advice_entry) := [
  ((py "Visie op passende zorg", 1),
   {| advice := py "Faciliteer een visie- en inspiratiesessie met stakeholders.";
      support := py "Startsessie of training: visie, netwerk of dashboard opzetten.";
      support_type := py "Training" |});
  ((py "Visie op passende zorg", 2),
   {| advice := py "Vertaal losse ideeën naar een eerste conceptvisie.";
      support := py "Co-creatie workshop: structuur of pilotplan uitwerken.";
      support_type := py "Workshop" |});
  ((py "Visie op passende zorg", 3),
   {| advice := py "Verscherp visie en koppel concrete doelen en termijnen.";
      support := py "Consultancy: concretiseer aanpak en borg werkwijze.";
      support_type := py "Consultancy" |});
  ((py "Leiderschap en eigenaarschap", 1),
   {| advice := py "Benoem een bestuurlijk ambassadeur voor passende zorg.";
      support := py "Startsessie of training: visie, netwerk of dashboard opzetten.";
      support_type := py "Training" |});
  ((py "Leiderschap en eigenaarschap", 2),
   {| advice := py "Betrek bestuur actief bij voortgang en beslismomenten.";
      support := py "Co-creatie workshop: structuur of pilotplan uitwerken.";
      support_type := py "Workshop" |});
  ((py "Leiderschap en eigenaarschap", 3),
   {| advice := py "Geef bestuur formele rol in governance.";
      support := py "Consultancy: concretiseer aanpak en borg werkwijze.";
      support_type := py "Consultancy" |});
  ((py "Regionale samenwerking", 1),
   {| advice := py "Breng partners in kaart en start eerste verkenningsgesprekken.";
      support := py "Startsessie of training: visie, netwerk of dashboard opzetten.";
      support_type := py "Training" |});
  ((py "Regionale samenwerking", 2),
   {| advice := py "Organiseer maandelijks thematisch netwerkoverleg.";
      support := py "Co-creatie workshop: structuur of pilotplan uitwerken.";
      support_type := py "Workshop" |});
  ((py "Regionale samenwerking", 3),
   {| advice := py "Versterk met gezamenlijke doelen en actielijst.";
      support := py "Consultancy: concretiseer aanpak en borg werkwijze.";
      support_type := py "Consultancy" |});
  ((py "Tools en platforms", 1),
   {| advice := py "Start met gedeelde mappen of formats.";
      support := py "Startsessie of training: visie, netwerk of dashboard opzetten.";
      support_type := py "Training" |});
  ((py "Tools en platforms", 2),
   {| advice := py "Verken dashboard-tools of Zoho/PowerBI.";
      support := py "Co-creatie workshop: structuur of pilotplan uitwerken.";
      support_type := py "Workshop" |});
  ((py "Tools en platforms", 3),
   {| advice := py "Versnel ontwikkeling en test actief met gebruikers.";
      support := py "Consultancy: concretiseer aanpak en borg werkwijze.";
      support_type := py "Consultancy" |});
  ((py "Patiëntgericht procesontwerp", 1),
   {| advice := py "Visualiseer de patiëntreis met team of patiëntpanel.";
      support := py "Startsessie of training: visie, netwerk of dashboard opzetten.";
      support_type := py "Training" |});
  ((py "Patiëntgericht procesontwerp", 2),
   {| advice := py "Evalueer pilots en werk verbeterideeën verder uit.";
      support := py "Co-creatie workshop: structuur of pilotplan uitwerken.";
      support_type := py "Workshop" |});
  ((py "Patiëntgericht procesontwerp", 3),
   {| advice := py "Standaardiseer het proces en monitor op resultaat.";
      support := py "Consultancy: concretiseer aanpak en borg werkwijze.";
      support_type := py "Consultancy" |});
  ((py "Leren en verbeteren", 1),
   {| advice := py "Start met reflectie- of verbetermomenten per kwartaal.";
      support := py "Startsessie of training: visie, netwerk of dashboard opzetten.";
      support_type := py "Training" |});
  ((py "Leren en verbeteren", 2),
   {| advice := py "Implementeer eenvoudige PDCA-cyclus op teamniveau.";
      support := py "Co-creatie workshop: structuur of pilotplan uitwerken.";
      support_type := py "Workshop" |});
  ((py "Leren en verbeteren", 3),
   {| advice := py "Borg deze in overleggen en dashboards.";
      support := py "Consultancy: concretiseer aanpak en borg werkwijze.";
      support_type := py "Consultancy" |});
  ((py "Outcomegericht werken", 1),
   {| advice := py "Definieer 2–3 relevante uitkomstindicatoren.";
      support := py "Startsessie of training: visie, netwerk of dashboard opzetten.";
      support_type := py "Training" |});
  ((py "Outcomegericht werken", 2),
   {| advice := py "Maak ze zichtbaar in teamoverleg of dashboard.";
      support := py "Co-creatie workshop: structuur of pilotplan uitwerken.";
      support_type := py "Workshop" |});
  ((py "Outcomegericht werken", 3),
   {| advice := py "Koppel outcome aan proces- en beslisinformatie.";
      support := py "Consultancy: concretiseer aanpak en borg werkwijze.";
      support_type := py "Consultancy" |});
  ((py "Monitoring en besluitvorming", 1),
   {| advice := py "Start met een maandelijks stuurmoment.";
      support := py "Startsessie of training: visie, netwerk of dashboard opzetten.";
      support_type := py "Training" |});
  ((py "Monitoring en besluitvorming", 2),
   {| advice := py "Introduceer KPI-dashboard met kwartaalupdate.";
      support := py "Co-creatie workshop: structuur of pilotplan uitwerken.";
      support_type := py "Workshop" |});
  ((py "Monitoring en besluitvorming", 3),
   {| advice := py "Train teams in gebruik en interpretatie.";
      support := py "Consultancy: concretiseer aanpak en borg werkwijze.";
      support_type := py "Consultancy" |})
].

Definition advice_mapping : gmap (pystr * Z) advice_entry :=
  list_to_map advice_table.

Definition domain_mapping : gmap pystr pystr := list_to_map [
  (py "Visie op passende zorg", py "Governance");
  (py "Leiderschap en eigenaarschap", py "Governance");
  (py "Regionale samenwerking", py "Structuur");
  (py "Tools en platforms", py "Structuur");
  (py "Patiëntgericht procesontwerp", py "Proces");
  (py "Leren en verbeteren", py "Proces");
  (py "Outcomegericht werken", py "Uitkomsten & sturing");
  (py "Monitoring en besluitvorming", py "Uitkomsten & sturing")
].

(** One element of [recommendations].  The source also stores the
    respondent's name and organisation in it; no cell shows them. *)
Record recommendation : Type := {
  rec_subdomain : pystr;
  rec_domain : pystr;
  rec_score : Z;
  rec_advice : pystr;
  rec_support : pystr;
  rec_support_type : pystr
}.

(** The body of the filter loop for one item of [subdomain_scores]. *)
Definition recommend (item : pystr * Z) : option recommendation :=
  let '(subdomain, score) := item in
  if score <=? 3 then
    rec ← advice_mapping !! (subdomain, score);
    Some {| rec_subdomain := subdomain;
            rec_domain := default [] (domain_mapping !! subdomain);
            rec_score := score;
            rec_advice := advice rec;
            rec_support := support rec;
            rec_support_type := support_type rec |}
  else None.

Definition recommendations (scores : list (pystr * Z)) : list recommendation :=
  omap recommend scores.

(** A drawn data row: the text lines of its four cells and the line count
    that fixes its height. *)
Record table_row : Type := {
  row_rec : recommendation;
  row_cells : list (list pystr);
  row_max_lines : nat
}.

Definition draw_row (rec : recommendation) : table_row :=
  {| row_rec := rec;
     row_cells := [ [rec_domain rec]; [rec_subdomain rec];
                    cell_lines ADVICE_WIDTH (rec_advice rec);
                    [str_of_Z (rec_score rec)] ];
     row_max_lines := max_lines ADVICE_WIDTH (rec_advice rec) |}.

Definition headers : list pystr :=
  [py "Domain"; py "Subdomain"; py "Advice"; py "Score"].

Definition congratulations : pystr :=
  py "Gefeliciteerd! Alle scores zijn hoger dan 3." ++ [NEWLINE]
    ++ py "Geen concrete aanbevelingen nodig.".

Definition create_concrete_recommendations_report (payload : payload_t)
    : result (table_image table_row) :=
  scores ← subdomain_scores payload;
  let recommendations := recommendations scores in
  mret (match recommendations with
        | [] => Congratulations congratulations
        | _ => Table headers (draw_row <$> recommendations)
        end).

End Recommendations.

(** ** The support-overview table (slide 8) *)

Module SupportOverview.

Definition field_mapping : list (pystr * pystr) := [
  (py "Governance_Q1", py "Visie op passende zorg");
  (py "Governance_Q2", py "Leiderschap en eigenaarschap");
  (py "Structuur_Q1", py "Regionale samenwerking");
  (py "Structuur_Q2", py "Tools en platforms");
  (py "Proces_Q1", py "Patiëntgericht procesontwerp");
  (py "Proces_Q2", py "Leren en verbeteren");
  (py "Uitkomsten_en_sturing_Q1", py "Outcomegericht werken");
  (py "Uitkomsten_en_sturing_Q2", py "Monitoring en besluitvorming")
].

Definition numeric_fields : list (pystr * pystr) := [
  (py "Governance_Q1_Numeric", py "Visie op passende zorg");
  (py "Governance_Q2_Numeric", py "Leiderschap en eigenaarschap");
  (py "Structuur_Q1_Numeric", py "Regionale samenwerking");
  (py "Structuur_Q2_Numeric", py "Tools en platforms");
  (py "Proces_Q1_Numeric", py "Patiëntgericht procesontwerp");
  (py "Proces_Q2_Numeric", py "Leren en verbeteren");
  (py "Uitkomsten_en_sturing_Q1_Numeric", py "Outcomegericht werken");
  (py "Uitkomsten_en_sturing_Q2_Numeric", py "Monitoring en besluitvorming")
].

Definition subdomain_scores (payload : payload_t) : result (list (pystr * Z)) :=
  scores ← text_scores_loop payload (λ _ scores, Ok scores) field_mapping [];
  numeric_scores_loop payload numeric_fields scores.

Record support_entry : Type := {
  support_type : pystr;
  description : pystr
}.

Definition support_table : list (pystr * Z * support_entry) := [
  ((py "Visie op passende zorg", 1),
   {| support_type := py "Training";
      description := py "Startsessie of training: visie, netwerk of dashboard opzetten." |});
  ((py "Visie op passende zorg", 2),
   {| support_type := py "Workshop";
      description := py "Co-creatie workshop: structuur of pilotplan uitwerken." |});
  ((py "Visie op passende zorg", 3),
   {| support_type := py "Consultancy";
      description := py "Consultancy: concretiseer aanpak en borg werkwijze." |});
  ((py "Leiderschap en eigenaarschap", 1),
   {| support_type := py "Training";
      description := py "Startsessie of training: visie, netwerk of dashboard opzetten." |});
  ((py "Leiderschap en eigenaarschap", 2),
   {| support_type := py "Workshop";
      description := py "Co-creatie workshop: structuur of pilotplan uitwerken." |});
  ((py "Leiderschap en eigenaarschap", 3),
   {| support_type := py "Consultancy";
      description := py "Consultancy: concretiseer aanpak en borg werkwijze." |});
  ((py "Regionale samenwerking", 1),
   {| support_type := py "Training";
      description := py "Startsessie of training: visie, netwerk of dashboard opzetten." |});
  ((py "Regionale samenwerking", 2),
   {| support_type := py "Workshop";
      description := py "Co-creatie workshop: structuur of pilotplan uitwerken." |});
  ((py "Regionale samenwerking", 3),
   {| support_type := py "Consultancy";
      description := py "Consultancy: concretiseer aanpak en borg werkwijze." |});
  ((py "Tools en platforms", 1),
   {| support_type := py "Training";
      description := py "Startsessie of training: visie, netwerk of dashboard opzetten." |});
  ((py "Tools en platforms", 2),
   {| support_type := py "Workshop";
      description := py "Co-creatie workshop: structuur of pilotplan uitwerken." |});
  ((py "Tools en platforms", 3),
   {| support_type := py "Consultancy";
      description := py "Consultancy: concretiseer aanpak en borg werkwijze." |});
  ((py "Patiëntgericht procesontwerp", 1),
   {| support_type := py "Training";
      description := py "Startsessie of training: visie, netwerk of dashboard opzetten." |});
  ((py "Patiëntgericht procesontwerp", 2),
   {| support_type := py "Workshop";
      description := py "Co-creatie workshop: structuur of pilotplan uitwerken." |});
  ((py "Patiëntgericht procesontwerp", 3),
   {| support_type := py "Consultancy";
      description := py "Consultancy: concretiseer aanpak en borg werkwijze." |});
  ((py "Leren en verbeteren", 1),
   {| support_type := py "Training";
      description := py "Startsessie of training: visie, netwerk of dashboard opzetten." |});
  ((py "Leren en verbeteren", 2),
   {| support_type := py "Workshop";
      description := py "Co-creatie workshop: structuur of pilotplan uitwerken." |});
  ((py "Leren en verbeteren", 3),
   {| support_type := py "Consultancy";
      description := py "Consultancy: concretiseer aanpak en borg werkwijze." |});
  ((py "Outcomegericht werken", 1),
   {| support_type := py "Training";
      description := py "Startsessie of training: visie, netwerk of dashboard opzetten." |});
  ((py "Outcomegericht werken", 2),
   {| support_type := py "Workshop";
      description := py "Co-creatie workshop: structuur of pilotplan uitwerken." |});
  ((py "Outcomegericht werken", 3),
   {| support_type := py "Consultancy";
      description := py "Consultancy: concretiseer aanpak en borg werkwijze." |});
  ((py "Monitoring en besluitvorming", 1),
   {| support_type := py "Training";
      description := py "Startsessie of training: visie, netwerk of dashboard opzetten." |});
  ((py "Monitoring en besluitvorming", 2),
   {| support_type := py "Workshop";
      description := py "Co-creatie workshop: structuur of pilotplan uitwerken." |});
  ((py "Monitoring en besluitvorming", 3),
   {| support_type := py "Consultancy";
      description := py "Consultancy: concretiseer aanpak en borg werkwijze." |})
].

Definition support_mapping : gmap (pystr * Z) support_entry :=
  list_to_map support_table.

(** One element of [support_recommendations]. *)
Record support_recommendation : Type := {
  sup_subdomain : pystr;
  sup_support_type : pystr;
  sup_description : pystr;
  sup_score : Z
}.

Definition recommend (item : pystr * Z) : option support_recommendation :=
  let '(subdomain, score) := item in
  if score <=? 3 then
    support_info ← support_mapping !! (subdomain, score);
    Some {| sup_subdomain := subdomain;
            sup_support_type := support_type support_info;
            sup_description := description support_info;
            sup_score := score |}
  else None.

Definition support_recommendations (scores : list (pystr * Z))
    : list support_recommendation :=
  omap recommend scores.

Record table_row : Type := {
  row_rec : support_recommendation;
  row_cells : list (list pystr);
  row_max_lines : nat
}.

Definition draw_row (rec : support_recommendation) : table_row :=
  {| row_rec := rec;
     row_cells := [ [sup_subdomain rec]; [sup_support_type rec];
                    cell_lines DESCRIPTION_WIDTH (sup_description rec);
                    [str_of_Z (sup_score rec)] ];
     row_max_lines := max_lines DESCRIPTION_WIDTH (sup_description rec) |}.

Definition headers : list pystr :=
  [py "Subdomain"; py "Support Type"; py "Description"; py "Score"].

Definition congratulations : pystr :=
  py "Gefeliciteerd! Alle scores zijn hoger dan 3." ++ [NEWLINE]
    ++ py "Geen ondersteuning nodig.".

Definition create_support_overview_report (payload : payload_t)
    : result (table_image table_row) :=
  scores ← subdomain_scores payload;
  let support_recommendations := support_recommendations scores in
  mret (match support_recommendations with
        | [] => Congratulations congratulations
        | _ => Table headers (draw_row <$> support_recommendations)
        end).

End SupportOverview.

(** ** Text cleaning *)

(** [while old in s: s = s.replace(old, new)].  Every pass of the loop
    shortens [s] when [new] is shorter than [old], so [length s] passes are
    enough ([replace_while_done] below). *)
Fixpoint replace_while (fuel : nat) (old new s : pystr) : pystr :=
  match fuel with
  | O => s
  | S fuel' =>
      if contains old s then replace_while fuel' old new (replace old new s) else s
  end.

(** The dictionary [replacements] of [clean_text], in insertion order.  Its
    literal lists the key CR LF twice; a dictionary keeps one entry. *)
Definition text_replacements : list (pystr * pystr) := [
  (py "_x000A", [10%N]);
  (py "_x000D", [13%N]);
  (py "_x000B", [10%N]);
  (py "_x0009", [9%N]);
  ([11%N], [10%N]);
  ([13%N; 10%N], [10%N])
].

Definition clean_line (line : pystr) : pystr :=
  strip (replace_while (length line) [SPACE; SPACE] [SPACE] line).

Definition clean_text (text : pystr) : pystr :=
  let cleaned :=
    fold_left (λ cleaned '(encoded_char, actual_char),
                 replace encoded_char actual_char cleaned)
              text_replacements text in
  let cleaned :=
    replace_while (length cleaned) [NEWLINE; NEWLINE; NEWLINE]
                  [NEWLINE; NEWLINE] cleaned in
  let lines := split NEWLINE cleaned in
  join [NEWLINE] (clean_line <$> lines).

(** ** The template document *)

Record font : Type := {
  font_name : option pystr;
  font_size : option Z;
  font_bold : option bool;
  font_italic : option bool;
  font_color : option (N * N * N)
}.

Definition no_font : font :=
  {| font_name := None; font_size := None; font_bold := None;
     font_italic := None; font_color := None |}.

Record run : Type := { run_text : pystr; run_font : font }.

Record paragraph : Type := { runs : list run }.

(** [paragraph.text] *)
Definition paragraph_text (p : paragraph) : pystr :=
  concat (run_text <$> runs p).

(** A placement rectangle, in inches. *)
Record rectangle : Type := {
  rect_left : Q;
  rect_top : Q;
  rect_width : Q;
  rect_height : Q
}.

Section Document.

(** The rendered images are a parameter of the document model. *)
Context {image : Type}.

Inductive shape : Type :=
| TextFrame (paragraphs : list paragraph)
| PlainText (text : pystr)
| Picture (img : image) (at_ : rectangle)
| OtherShape.

Record slide : Type := { shapes : list shape }.

(** [slide.shapes.add_picture(path, left, top, width, height)] *)
Definition add_picture (img : image) (r : rectangle) (s : slide) : slide :=
  {| shapes := shapes s ++ [Picture img r] |}.

(** Run [f] on [presentation.slides[k]], which it changes in place. *)
Definition on_slide (k : nat) (f : slide → result slide) (p : list slide)
    : result (list slide) :=
  match p !! k with
  | None => Raise IndexError
  | Some s => s' ← f s; mret (<[k := s']> p)
  end.

(** [if len(presentation.slides) > k: f(presentation.slides[k])] *)
Definition if_slide (k : nat) (f : slide → result slide) (p : list slide)
    : result (list slide) :=
  if (k <? length p)%nat then on_slide k f p else Ok p.

(** A list of steps, each run on the slide at its index, with no check that
    the slide exists: the reference against which the guarded loops of the
    source are compared. *)
Fixpoint run_steps (steps : list (nat * (slide → result slide))) (p : list slide)
    : result (list slide) :=
  match steps with
  | [] => Ok p
  | (k, f) :: steps' => p ← on_slide k f p; run_steps steps' p
  end.

(** The guarded loop over a table of steps. *)
Fixpoint guarded_steps (steps : list (nat * (slide → result slide)))
    (p : list slide) : result (list slide) :=
  match steps with
  | [] => Ok p
  | (k, f) :: steps' => p ← if_slide k f p; guarded_steps steps' p
  end.

(** The formatting the new run receives from the first original run: a
    field is copied when it is set (and, for the name, the size and the
    colour, truthy). *)
Definition kept_format (first_format : font) : font :=
  {| font_name := match font_name first_format with
                  | Some n => if nonempty n then Some n else None
                  | None => None
                  end;
     font_size := match font_size first_format with
                  | Some z => if z =? 0 then None else Some z
                  | None => None
                  end;
     font_bold := font_bold first_format;
     font_italic := font_italic first_format;
     font_color := font_color first_format |}.

(** [text.replace(placeholder, value)] needs a string [value]. *)
Definition replace_value (placeholder : pystr) (value : jvalue) (text : pystr)
    : result pystr :=
  match value with
  | JStr v => Ok (replace placeholder v text)
  | _ => Raise TypeError
  end.

(** The placeholder loop of a paragraph: membership is tested on the
    original text, the replacements accumulate in [new_paragraph_text]. *)
Fixpoint substitute_paragraph (replacements : list (pystr * jvalue))
    (paragraph_text new_paragraph_text : pystr) (needs_replacement : bool)
    : result (pystr * bool) :=
  match replacements with
  | [] => Ok (new_paragraph_text, needs_replacement)
  | (placeholder, value) :: replacements' =>
      if contains placeholder paragraph_text
      then
        new_paragraph_text ← replace_value placeholder value new_paragraph_text;
        substitute_paragraph replacements' paragraph_text new_paragraph_text true
      else
        substitute_paragraph replacements' paragraph_text new_paragraph_text
                             needs_replacement
  end.

Definition replace_in_paragraph (replacements : list (pystr * jvalue))
    (p : paragraph) : result paragraph :=
  '(new_paragraph_text, needs_replacement) ←
    substitute_paragraph replacements (paragraph_text p) (paragraph_text p) false;
  mret (if needs_replacement : bool
        then {| runs := [ {| run_text := clean_text new_paragraph_text;
                             run_font := match runs p with
                                         | [] => no_font
                                         | r :: _ => kept_format (run_font r)
                                         end |} ] |}
        else p).

(** The placeholder loop of a shape that only has [text]: membership is
    tested on the text as replaced so far. *)
Fixpoint substitute_plain (replacements : list (pystr * jvalue))
    (new_text : pystr) : result pystr :=
  match replacements with
  | [] => Ok new_text
  | (placeholder, value) :: replacements' =>
      if contains placeholder new_text
      then
        new_text ← replace_value placeholder value new_text;
        substitute_plain replacements' new_text
      else substitute_plain replacements' new_text
  end.

Definition replace_in_shape (replacements : list (pystr * jvalue)) (sh : shape)
    : result shape :=
  match sh with
  | TextFrame paragraphs =>
      TextFrame <$> mapM (replace_in_paragraph replacements) paragraphs
  | PlainText original_text =>
      new_text ← substitute_plain replacements original_text;
      mret (if decide (new_text = original_text)
            then PlainText original_text
            else PlainText (clean_text new_text))
  | other => Ok other
  end.

Definition replace_in_slide (replacements : list (pystr * jvalue)) (s : slide)
    : result slide :=
  shapes' ← mapM (replace_in_shape replacements) (shapes s);
  mret {| shapes := shapes' |}.

End Document.
Arguments shape : clear implicits.
Arguments slide : clear implicits.

(** The template document: its slides. *)
Abbreviation presentation image := (list (slide image)).

(** ** Chart data, image placement and placeholder substitution *)

(** The 8 numeric fields as the subdomain table lists them:
    domain, subdomain, payload field. *)
Definition subdomain_fields : list (pystr * pystr * pystr) := [
  (py "Governance", py "Visie op passende zorg", py "Governance_Q1_Numeric");
  (py "Governance", py "Leiderschap en eigenaarschap", py "Governance_Q2_Numeric");
  (py "Structuur", py "Regionale samenwerking", py "Structuur_Q1_Numeric");
  (py "Structuur", py "Tools en platforms", py "Structuur_Q2_Numeric");
  (py "Proces", py "Patiëntgericht procesontwerp", py "Proces_Q1_Numeric");
  (py "Proces", py "Leren en verbeteren", py "Proces_Q2_Numeric");
  (py "Uitkomsten & sturing", py "Outcomegericht werken",
   py "Uitkomsten_en_sturing_Q1_Numeric");
  (py "Uitkomsten & sturing", py "Monitoring en besluitvorming",
   py "Uitkomsten_en_sturing_Q2_Numeric")
].

(** The axes of the radar chart: label, payload field. *)
Definition spider_fields : list (pystr * pystr) := [
  (py "Visie op passende zorg", py "Governance_Q1_Numeric");
  (py "Leiderschap en eigenaarschap", py "Governance_Q2_Numeric");
  (py "Regionale samenwerking", py "Structuur_Q1_Numeric");
  (py "Tools en platforms", py "Structuur_Q2_Numeric");
  (py "Patiëntgericht procesontwerp", py "Proces_Q1_Numeric");
  (py "Leren en verbeteren", py "Proces_Q2_Numeric");
  (py "Sturing op uitkomsten", py "Uitkomsten_en_sturing_Q1_Numeric");
  (py "Datagebruik in besluitvorming", py "Uitkomsten_en_sturing_Q2_Numeric")
].

Definition domain_sum_fields : list (pystr * pystr * Z) := [
  (py "Governance", py "Domain_1_Sum", 1);
  (py "Structuur", py "Domain_2_Sum", 2);
  (py "Proces", py "Domain_3_Sum", 3);
  (py "Uitkomsten & sturing", py "Domain_4_Sum", 4)
].

(** The data of the maturity chart. *)
Record score_breakdown : Type := {
  total_score : Z;
  domain_scores : list (pystr * list (pystr * Z));
  current_phase_idx : nat
}.

(** The extraction loop of [create_score_breakdown_chart]. *)
Fixpoint breakdown_loop (payload : payload_t) (fields : list (pystr * pystr * pystr))
    (total_score : Z) (subdomain_scores : list (pystr * list (pystr * Z)))
    : result (Z * list (pystr * list (pystr * Z))) :=
  match fields with
  | [] => Ok (total_score, subdomain_scores)
  | (domain, subdomain, field) :: fields' =>
      match payload !! field with
      | None => breakdown_loop payload fields' total_score subdomain_scores
      | Some v =>
          score ← py_int v;
          breakdown_loop payload fields' (total_score + score)
            (dict_set domain
               (default [] (dict_get domain subdomain_scores) ++ [(subdomain, score)])
               subdomain_scores)
      end
  end.

Definition create_score_breakdown_chart (payload : payload_t) : result score_breakdown :=
  '(total_score, subdomain_scores) ← breakdown_loop payload subdomain_fields 0 [];
  mret {| total_score := total_score;
          domain_scores := subdomain_scores;
          current_phase_idx := current_phase total_score |}.

Definition create_domain_subdomain_report (payload : payload_t)
    : result (list (pystr * pystr * Z)) :=
  mapM (λ '(domain, subdomain, field),
          score ← py_int (payload_get payload field (JInt 0));
          mret (domain, subdomain, score))
       subdomain_fields.

Definition create_spider_chart_report (payload : payload_t)
    : result (list (pystr * Z)) :=
  mapM (λ '(subdomain, field),
          score ← py_int (payload_get payload field (JInt 0));
          mret (subdomain, score))
       spider_fields.

Inductive image : Type :=
| ScoreBreakdownChart (chart : score_breakdown)
| DomainScoresTable (rows : list (Z * pystr * pyfloat * star_rating))
| DomainSubdomainReport (rows : list (pystr * pystr * Z))
| SpiderChart (axes : list (pystr * Z))
| RecommendationsReport (table : table_image Recommendations.table_row)
| SupportOverviewReport (table : table_image SupportOverview.table_row).

Section Pipeline.

(** Two library functions are left open: [float] on a string, and [str]
    on a value that is neither a string, an integer, a boolean nor null. *)
Variable float_of_str : pystr → option pyfloat.
Variable repr_other : jvalue → pystr.

(** [float(v)] *)
Definition py_float (v : jvalue) : result pyfloat :=
  match v with
  | JStr s => match float_of_str s with
              | Some f => Ok f
              | None => Raise ValueError
              end
  | JInt n => Ok (Finite (inject_Z n))
  | JFloat f => Ok f
  | JBool b => Ok (Finite (if b then 1 else 0))
  | JNull | JCompound => Raise TypeError
  end.

(** [str(v)], as an f-string formats a value. *)
Definition py_str (v : jvalue) : pystr :=
  match v with
  | JStr s => s
  | JInt n => str_of_Z n
  | JBool true => py "True"
  | JBool false => py "False"
  | JNull => py "None"
  | other => repr_other other
  end.

Definition calculate_domain_data (payload : payload_t)
    : result (list (pystr * pyfloat * Z)) :=
  mapM (λ '(name, field, index),
          score ← py_float (payload_get payload field (JInt 0));
          mret (name, score, index))
       domain_sum_fields.

(** The rating cell: [int] of a non-finite float raises. *)
Definition rating_cell (score : pyfloat) : result star_rating :=
  match score with
  | Finite q => Ok (generate_star_rating q)
  | Infinite => Raise OverflowError
  | NaN => Raise ValueError
  end.

Definition create_domain_scores_table (domain_data : list (pystr * pyfloat * Z))
    : result (list (Z * pystr * pyfloat * star_rating)) :=
  mapM (λ '(name, score, index),
          rating ← rating_cell score;
          mret (index, name, score, rating))
       domain_data.

Definition inches (l t w h : Q) : rectangle :=
  {| rect_left := l; rect_top := t; rect_width := w; rect_height := h |}.

Definition add_score_breakdown_to_slide4 (payload : payload_t) (s : slide image)
    : result (slide image) :=
  chart ← create_score_breakdown_chart payload;
  mret (add_picture (ScoreBreakdownChart chart)
          (inches 0.5 (1.5 - 0.9) 12.0 (5.5 - 1.5)) s).

Definition add_domain_scores_chart (payload : payload_t) (s : slide image)
    : result (slide image) :=
  domain_data ← calculate_domain_data payload;
  chart ← create_domain_scores_table domain_data;
  mret (add_picture (DomainScoresTable chart) (inches 2.0 2.5 9 4) s).

Definition add_detailed_reports_to_slide6 (payload : payload_t) (s : slide image)
    : result (slide image) :=
  subdomain_report ← create_domain_subdomain_report payload;
  let left := (0.1 - 0.5)%Q in
  let left := if negb (Qle_bool 0 left) then 0.05%Q else (0.1 - 0.5)%Q in
  let s := add_picture (DomainSubdomainReport subdomain_report)
             (inches left (3.2 - 0.5) 9.2 2.8) s in
  spider_chart ← create_spider_chart_report payload;
  mret (add_picture (SpiderChart spider_chart)
          (inches (6.0 + 2.0 + 0.5) (3.2 - 0.7) 4.0 3.0) s).

Definition add_concrete_recommendations_to_slide7 (payload : payload_t)
    (s : slide image) : result (slide image) :=
  chart ← Recommendations.create_concrete_recommendations_report payload;
  mret (add_picture (RecommendationsReport chart) (inches 1.0 2.7 10.5 3.6) s).

Definition add_support_overview_to_slide8 (payload : payload_t)
    (s : slide image) : result (slide image) :=
  chart ← SupportOverview.create_support_overview_report payload;
  mret (add_picture (SupportOverviewReport chart) (inches 1.0 2.7 10.5 3.6) s).

(** [add_charts_to_slides]: five guarded steps, in this order. *)
Definition add_charts_to_slides (p : presentation image) (payload : payload_t)
    : result (presentation image) :=
  p ← if_slide 3 (add_score_breakdown_to_slide4 payload) p;
  p ← if_slide 4 (add_domain_scores_chart payload) p;
  p ← if_slide 5 (add_detailed_reports_to_slide6 payload) p;
  p ← if_slide 6 (add_concrete_recommendations_to_slide7 payload) p;
  p ← if_slide 7 (add_support_overview_to_slide8 payload) p;
  mret p.

(** The five placements as a table: slide index, step. *)
Definition chart_steps (payload : payload_t)
    : list (nat * (slide image → result (slide image))) := [
  (3%nat, add_score_breakdown_to_slide4 payload);
  (4%nat, add_domain_scores_chart payload);
  (5%nat, add_detailed_reports_to_slide6 payload);
  (6%nat, add_concrete_recommendations_to_slide7 payload);
  (7%nat, add_support_overview_to_slide8 payload)
].

(** The substitutions as a table: slide index, step. *)
Definition substitution_steps (todo : list (nat * list (pystr * jvalue)))
    : list (nat * (slide image → result (slide image))) :=
  (λ '(slide_index, replacements), (slide_index, replace_in_slide replacements))
    <$> todo.

(** The replacement values of [replace_placeholders]. *)
Record replacement_values : Type := {
  organization : jvalue;
  respondent_name : pystr;
  report_date : pystr;
  total_sum : jvalue;
  transitiefase : pystr;
  lowest_domains : pystr
}.

(** [report_date] stands for [datetime.now().strftime('%d-%m-%Y')]. *)
Definition prepare_values (report_date : pystr) (payload : payload_t)
    : result replacement_values :=
  let organization := payload_get payload (py "Organization") (JStr []) in
  let first_name := payload_get payload (py "First_Name") (JStr []) in
  let last_name := payload_get payload (py "Last_Name") (JStr []) in
  let respondent_name := strip (py_str first_name ++ [SPACE] ++ py_str last_name) in
  let total_sum := payload_get payload (py "Total_Sum") (JStr (py "0")) in
  transitiefase ← get_transitiefase total_sum;
  lowest_domains ← get_lowest_scoring_domains payload;
  mret {| organization := organization;
          respondent_name := respondent_name;
          report_date := report_date;
          total_sum := total_sum;
          transitiefase := transitiefase;
          lowest_domains := lowest_domains |}.

Definition slide_replacements (v : replacement_values)
    : list (nat * list (pystr * jvalue)) := [
  (0%nat, [ (py "{{organisatie}}", organization v);
            (py "{{rapport_datum}}", JStr (report_date v));
            (py "{{respondent_naam}}", JStr (respondent_name v)) ]);
  (3%nat, [ (py "{{organisatie}}", organization v);
            (py "{{totaalscore}}", JStr (py_str (total_sum v)));
            (py "{{transitiefase_naam}}", JStr (transitiefase v)) ]);
  (8%nat, [ (py "{{organisatie}}", organization v);
            (py "{{transitiefase}}", JStr (transitiefase v));
            (py "{{laagst_scorende_domein}}", JStr (lowest_domains v)) ])
].

(** [for slide_index, replacements in slide_replacements.items()] *)
Fixpoint process_slides (todo : list (nat * list (pystr * jvalue)))
    (p : presentation image) : result (presentation image) :=
  match todo with
  | [] => Ok p
  | (slide_index, replacements) :: todo' =>
      p ← if_slide slide_index (replace_in_slide replacements) p;
      process_slides todo' p
  end.

Definition replace_placeholders (report_date : pystr) (p : presentation image)
    (payload : payload_t) : result (presentation image) :=
  v ← prepare_values report_date payload;
  process_slides (slide_replacements v) p.

(** The handler runs substitution, then image placement. *)
Definition generate_report (report_date : pystr) (template : presentation image)
    (payload : payload_t) : result (presentation image) :=
  processed_ppt ← replace_placeholders report_date template payload;
  add_charts_to_slides processed_ppt payload.

End Pipeline.


(** ** Sample payloads *)

(** [Governance_Q1_Numeric] is 1, the seven other numeric fields are 5. *)
Definition payload_one_low : payload_t := list_to_map [
  (py "Governance_Q1_Numeric", JInt 1);
  (py "Governance_Q2_Numeric", JInt 5);
  (py "Structuur_Q1_Numeric", JInt 5);
  (py "Structuur_Q2_Numeric", JInt 5);
  (py "Proces_Q1_Numeric", JInt 5);
  (py "Proces_Q2_Numeric", JInt 5);
  (py "Uitkomsten_en_sturing_Q1_Numeric", JInt 5);
  (py "Uitkomsten_en_sturing_Q2_Numeric", JInt 5)
].

(** A subdomain answered in both encodings, with different scores. *)
Definition payload_both_encodings : payload_t := list_to_map [
  (py "Governance_Q1", JStr (py "2. Er zijn losse ideeën"));
  (py "Governance_Q1_Numeric", JInt 4)
].


(** Three numeric fields, two of them low. *)
Definition payload_two_low : payload_t := list_to_map [
  (py "Governance_Q1_Numeric", JInt 1);
  (py "Structuur_Q1_Numeric", JInt 3);
  (py "Proces_Q2_Numeric", JStr (py "2"))
].

(** A line break, two lines of blanks, a line break. *)
Definition text_blank_lines : pystr :=
  py "a" ++ [NEWLINE] ++ py " " ++ [NEWLINE] ++ py " " ++ [NEWLINE] ++ py "b".

(** ** Further definitions used by the properties below *)

(** The rating a glyph string shows, counted in half circles. *)
Fixpoint half_circles (g : list glyph) : nat :=
  match g with
  | [] => 0%nat
  | Filled :: g' => (2 + half_circles g')%nat
  | HalfFilled :: g' => (1 + half_circles g')%nat
  | Empty :: g' => half_circles g'
  end.

(** [int(payload.get(field, 0))] for each field of a list, in order. *)
Definition numeric_scores (payload : payload_t) (fields : list pystr)
    : result (list Z) :=
  mapM (λ field, py_int (payload_get payload field (JInt 0))) fields.

(** The eight numeric fields, in the order every chart reads them. *)
Definition numeric_field_names : list pystr := subdomain_fields.*2.

(** The sum of a list of integers. *)
Definition sum_scores (l : list Z) : Z := foldr Z.add 0 l.

(** All the scores that the maturity chart lists under its domains. *)
Definition listed_scores (domain_scores : list (pystr * list (pystr * Z))) : list Z :=
  (mjoin domain_scores.*2).*2.

(** A shape that is an inserted picture. *)
Definition is_picture {image : Type} (sh : shape image) : Prop :=
  match sh with
  | Picture _ _ => True
  | _ => False
  end.

(** How many pictures image placement puts on the slide of index [j]. *)
Definition pictures_placed (j : nat) : nat :=
  match j with
  | 3 | 4 | 6 | 7 => 1
  | 5 => 2
  | _ => 0
  end%nat.

(** What substitution may do to a shape: a text frame keeps its paragraphs,
    each either untouched or rewritten as a single run; a plain text stays a
    plain text; a picture and any other shape stay as they are. *)
Definition same_kind {image : Type} (sh sh' : shape image) : Prop :=
  match sh, sh' with
  | TextFrame ps, TextFrame ps' =>
      Forall2 (λ par par', par' = par ∨ length (runs par') = 1%nat) ps ps'
  | PlainText _, PlainText _ => True
  | Picture img r, Picture img' r' => img' = img ∧ r' = r
  | OtherShape, OtherShape => True
  | _, _ => False
  end.

(** A slide holding one text frame with one paragraph of one run. *)
Definition sample_slide (text : pystr) : slide image :=
  {| shapes := [ TextFrame [ {| runs := [ {| run_text := text;
                                              run_font := no_font |} ] |} ] ] |}.

(** A template of nine slides with the placeholders of slides 1, 4 and 9. *)
Definition sample_deck : presentation image := [
  sample_slide (py "{{organisatie}} {{rapport_datum}} {{respondent_naam}}");
  sample_slide (py "Inleiding");
  sample_slide (py "Werkwijze");
  sample_slide (py "{{organisatie}}: {{totaalscore}} punten, {{transitiefase_naam}}");
  sample_slide (py "Domeinen");
  sample_slide (py "Subdomeinen");
  sample_slide (py "Aanbevelingen");
  sample_slide (py "Ondersteuning");
  sample_slide (py "{{transitiefase}}: {{laagst_scorende_domein}}")
].

(** Some placeholder of [replacements] occurs in [text]. *)
Definition mentions (replacements : list (pystr * jvalue)) (text : pystr) : bool :=
  existsb (λ '(placeholder, _), contains placeholder text) replacements.

(** The texts of a shape in which placeholders are looked for. *)
Definition shape_texts {image : Type} (sh : shape image) : list pystr :=
  match sh with
  | TextFrame paragraphs => paragraph_text <$> paragraphs
  | PlainText text => [text]
  | _ => []
  end.

(** A payload whose organisation is a number. *)
Definition payload_numeric_organization : payload_t :=
  <[py "Organization" := JInt 2000]> payload_two_low.

(** [s] does not start with white space. *)
Definition starts_clean (s : pystr) : Prop :=
  match s with
  | [] => True
  | c :: _ => isspace c = false
  end.

(** * Properties *)

(** ** Maturity phases *)

Section PhaseBuckets.

Variable T : Z.

Lemma transitiefase_startfase : 0 ≤ T ≤ 14 → transitiefase_of T = py "Startfase".
Proof. intros H. unfold transitiefase_of. repeat (case_match; try lia; try reflexivity). Qed.

Lemma transitiefase_aan_de_slag : 15 ≤ T ≤ 22 → transitiefase_of T = py "Aan de slag".
Proof. intros H. unfold transitiefase_of. repeat (case_match; try lia; try reflexivity). Qed.

Lemma transitiefase_op_de_kaart : 23 ≤ T ≤ 30 → transitiefase_of T = py "Op de kaart".
Proof. intros H. unfold transitiefase_of. repeat (case_match; try lia; try reflexivity). Qed.

Lemma transitiefase_in_control : 31 ≤ T ≤ 36 → transitiefase_of T = py "In control".
Proof. intros H. unfold transitiefase_of. repeat (case_match; try lia; try reflexivity). Qed.

Lemma transitiefase_voorloper : 37 ≤ T ≤ 40 → transitiefase_of T = py "Voorloper".
Proof. intros H. unfold transitiefase_of. repeat (case_match; try lia; try reflexivity). Qed.

Lemma transitiefase_onbekend : T < 0 ∨ 40 < T → transitiefase_of T = py "Onbekend".
Proof. intros H. unfold transitiefase_of. repeat (case_match; try lia; try reflexivity). Qed.

End PhaseBuckets.

(** Settles an equation between two different phase names, or a bound. *)
Ltac phase_case :=
  split; intros Hcase;
  first [ lia | reflexivity | vm_compute in Hcase; discriminate Hcase ].

(** C4. For every total score T in [0,40] the phase classification succeeds
    with one of the five named phases, the same one that the maturity chart
    highlights; T is classified into a phase exactly when it lies in that
    phase's range, the ranges being 0-14, 15-22, 23-30, 31-36 and 37-40; and
    14 is "Startfase", 15 and 22 are "Aan de slag", 23 is "Op de kaart" and
    40 is "Voorloper". *)
Theorem classify_phase_buckets (T : Z) :
  0 ≤ T ≤ 40 →
  get_transitiefase (JInt T) = Ok (transitiefase_of T)
  ∧ phase_name <$> phases !! current_phase T = Some (transitiefase_of T)
  ∧ (transitiefase_of T = py "Startfase" ↔ 0 ≤ T ≤ 14)
  ∧ (transitiefase_of T = py "Aan de slag" ↔ 15 ≤ T ≤ 22)
  ∧ (transitiefase_of T = py "Op de kaart" ↔ 23 ≤ T ≤ 30)
  ∧ (transitiefase_of T = py "In control" ↔ 31 ≤ T ≤ 36)
  ∧ (transitiefase_of T = py "Voorloper" ↔ 37 ≤ T ≤ 40)
  ∧ transitiefase_of 14 = py "Startfase"
  ∧ transitiefase_of 15 = py "Aan de slag"
  ∧ transitiefase_of 22 = py "Aan de slag"
  ∧ transitiefase_of 23 = py "Op de kaart"
  ∧ transitiefase_of 40 = py "Voorloper".
Proof.
  intros HT.
  assert (Hrange : 0 ≤ T ≤ 14 ∨ 15 ≤ T ≤ 22 ∨ 23 ≤ T ≤ 30
                   ∨ 31 ≤ T ≤ 36 ∨ 37 ≤ T ≤ 40) by lia.
  split; [reflexivity|].
  assert (Hidx : phase_name <$> phases !! current_phase T = Some (transitiefase_of T)).
  { unfold current_phase.
    destruct Hrange as [H|[H|[H|[H|H]]]];
      [ rewrite (transitiefase_startfase T H)
      | rewrite (transitiefase_aan_de_slag T H)
      | rewrite (transitiefase_op_de_kaart T H)
      | rewrite (transitiefase_in_control T H)
      | rewrite (transitiefase_voorloper T H) ];
      repeat (case_match; try lia); reflexivity. }
  split; [exact Hidx|]. clear Hidx.
  assert (Hfixed : transitiefase_of 14 = py "Startfase"
                   ∧ transitiefase_of 15 = py "Aan de slag"
                   ∧ transitiefase_of 22 = py "Aan de slag"
                   ∧ transitiefase_of 23 = py "Op de kaart"
                   ∧ transitiefase_of 40 = py "Voorloper")
    by (vm_compute; repeat split).
  destruct Hrange as [H|[H|[H|[H|H]]]];
    [ rewrite (transitiefase_startfase T H)
    | rewrite (transitiefase_aan_de_slag T H)
    | rewrite (transitiefase_op_de_kaart T H)
    | rewrite (transitiefase_in_control T H)
    | rewrite (transitiefase_voorloper T H) ];
    (split; [phase_case|]); (split; [phase_case|]); (split; [phase_case|]);
    (split; [phase_case|]); (split; [phase_case|]); exact Hfixed.
Qed.

Lemma classify_phase_buckets_witness :
  get_transitiefase (JInt 36) = Ok (transitiefase_of 36).
Proof. refine (proj1 (classify_phase_buckets 36 _)). lia. Defined.

(** ** Circle rating *)

Lemma truncate_floor (q : Q) : (0 <= q)%Q → truncate q = Qfloor q.
Proof.
  destruct q as [n d]. unfold Qle, truncate, Qfloor. simpl. intros H.
  apply Z.quot_div_nonneg; lia.
Qed.


Lemma length_times {A} (c : A) (n : Z) : length (times c n) = Z.to_nat n.
Proof. unfold times. apply repeat_length. Qed.




(** The normalisation as the source computes it, in binary64 arithmetic: at
    the three scores quoted above it yields exactly the rational value. *)
Module Binary64.
Import PrimFloat.

Definition normalized_score (score : float) : float := (score / 10 * 5)%float.

Example normalized_score_exact :
  (eqb (normalized_score 7) 3.5 && eqb (normalized_score 10) 5
   && eqb (normalized_score 0) 0)%bool = true.
Proof. vm_compute. reflexivity. Qed.

End Binary64.

(** ** Low-scoring domains *)

Lemma low_scoring_loop_spec (payload : payload_t) (keys : list (pystr * pystr))
    (acc : list pystr) :
  (∀ key keyword, (key, keyword) ∈ keys →
     ∃ n, py_int (payload_get payload key (JInt 0)) = Ok n) →
  low_scoring_loop payload keys acc
  = Ok (acc ++ ((λ kk, kk.2 ++ py ": " ++ str_of_Z (numeric_score payload kk.1))
                  <$> filter (scores_low payload) keys)).
Proof.
  revert acc. induction keys as [|[key keyword] keys IH]; intros acc Hint.
  - cbn. by rewrite app_nil_r.
  - destruct (Hint key keyword) as [n Hn]; [left|].
    assert (Hscore : numeric_score payload key = n)
      by (unfold numeric_score; by rewrite Hn).
    cbn [low_scoring_loop]. rewrite Hn. cbn [mbind result_bind].
    rewrite IH by (intros k w Hin; apply (Hint k w); by right).
    rewrite filter_cons.
    destruct (decide (scores_low payload (key, keyword))) as [Hlow|Hlow];
      unfold scores_low in Hlow; cbn [fst] in Hlow; rewrite Hscore in Hlow.
    + assert ((n =? 1) || (n =? 2) = true) as ->
        by (destruct Hlow as [-> | ->]; reflexivity).
      rewrite fmap_cons. cbn [fst snd]. rewrite Hscore. by rewrite <- app_assoc.
    + assert ((n =? 1) || (n =? 2) = false) as ->
        by (apply orb_false_intro; apply Z.eqb_neq; intros ->; apply Hlow; auto).
      reflexivity.
Qed.

(** C10. When the eight numeric fields convert to integers, the string that
    replaces the placeholder for the lowest-scoring domains lists exactly the
    fields that score 1 or 2 (an absent field counts as 0, and 0 and 3 are
    left out), each as ["<keyword>: <score>"], in the fixed field order and
    joined with a comma and a space; with no such field it is
    "Geen lage scores". *)
Theorem lowest_scoring_domains_listing (payload : payload_t) :
  (∀ key keyword, (key, keyword) ∈ keywords →
     ∃ n, py_int (payload_get payload key (JInt 0)) = Ok n) →
  get_lowest_scoring_domains payload = Ok (low_scoring_spec payload)
  ∧ (∀ repr_other report_date v,
       prepare_values repr_other report_date payload = Ok v →
       (8%nat, [ (py "{{organisatie}}", organization v);
                 (py "{{transitiefase}}", JStr (transitiefase v));
                 (py "{{laagst_scorende_domein}}", JStr (low_scoring_spec payload)) ])
       ∈ slide_replacements repr_other v)
  ∧ (∀ key, payload !! key = None → numeric_score payload key = 0)
  ∧ (∀ kk, kk ∈ filter (scores_low payload) keywords ↔
           kk ∈ keywords ∧ (numeric_score payload kk.1 = 1
                             ∨ numeric_score payload kk.1 = 2)).
Proof.
  intros Hint.
  assert (Hget : get_lowest_scoring_domains payload = Ok (low_scoring_spec payload)).
  { unfold get_lowest_scoring_domains, low_scoring_spec.
    rewrite (low_scoring_loop_spec payload keywords [] Hint).
    cbn [mbind result_bind app].
    destruct (filter (scores_low payload) keywords); reflexivity. }
  split; [exact Hget|]. split; [|split].
  - intros repr_other report_date v Hv. unfold prepare_values in Hv.
    rewrite Hget in Hv.
    destruct (get_transitiefase _) as [fase|]; [|discriminate Hv].
    unfold mbind, result_bind, mret, result_ret in Hv. injection Hv as <-.
    unfold slide_replacements. do 2 right. left.
  - intros key Hkey. unfold numeric_score, payload_get. by rewrite Hkey.
  - intros kk. rewrite list_elem_of_filter. unfold scores_low. tauto.
Qed.

Lemma numeric_fields_convert (payload : payload_t) (keys : list (pystr * pystr)) :
  forallb (λ kk, match py_int (payload_get payload kk.1 (JInt 0)) with
                 | Ok _ => true
                 | Raise _ => false
                 end) keys = true →
  ∀ key keyword, (key, keyword) ∈ keys →
    ∃ n, py_int (payload_get payload key (JInt 0)) = Ok n.
Proof.
  rewrite forallb_forall. intros Hall key keyword Hin.
  apply list_elem_of_In in Hin. specialize (Hall _ Hin). cbn [fst] in Hall.
  destruct (py_int _) as [n|]; [by exists n|discriminate].
Qed.

Lemma lowest_scoring_domains_listing_witness :
  get_lowest_scoring_domains payload_two_low = Ok (py "Visie: 1, Leren: 2").
Proof.
  refine (eq_trans (proj1 (lowest_scoring_domains_listing payload_two_low _)) _).
  - apply numeric_fields_convert. vm_compute. reflexivity.
  - vm_compute. reflexivity.
Defined.

(** ** The advice and support tables *)

Lemma advice_lookup_score (subdomain : pystr) (score : Z) a :
  Recommendations.advice_mapping !! (subdomain, score) = Some a → 1 ≤ score ≤ 3.
Proof.
  unfold Recommendations.advice_mapping. intros Hlook.
  apply elem_of_list_to_map_2, list_elem_of_In in Hlook.
  assert (Hall : forallb (λ x : pystr * Z * Recommendations.advice_entry,
                            (1 <=? x.1.2) && (x.1.2 <=? 3))
                         Recommendations.advice_table = true)
    by (vm_compute; reflexivity).
  rewrite forallb_forall in Hall. specialize (Hall _ Hlook). cbn [fst snd] in Hall.
  lia.
Qed.

Lemma support_lookup_score (subdomain : pystr) (score : Z) s :
  SupportOverview.support_mapping !! (subdomain, score) = Some s → 1 ≤ score ≤ 3.
Proof.
  unfold SupportOverview.support_mapping. intros Hlook.
  apply elem_of_list_to_map_2, list_elem_of_In in Hlook.
  assert (Hall : forallb (λ x : pystr * Z * SupportOverview.support_entry,
                            (1 <=? x.1.2) && (x.1.2 <=? 3))
                         SupportOverview.support_table = true)
    by (vm_compute; reflexivity).
  rewrite forallb_forall in Hall. specialize (Hall _ Hlook). cbn [fst snd] in Hall.
  lia.
Qed.

Lemma advice_lookup_none (subdomain : pystr) (score : Z) :
  ¬ 1 ≤ score ≤ 3 → Recommendations.advice_mapping !! (subdomain, score) = None.
Proof.
  intros Hout. destruct (_ !! _) as [a|] eqn:E; [|reflexivity].
  apply advice_lookup_score in E. lia.
Qed.

Lemma support_lookup_none (subdomain : pystr) (score : Z) :
  ¬ 1 ≤ score ≤ 3 → SupportOverview.support_mapping !! (subdomain, score) = None.
Proof.
  intros Hout. destruct (_ !! _) as [a|] eqn:E; [|reflexivity].
  apply support_lookup_score in E. lia.
Qed.

(** No row is made for an item whose score has no table entry. *)
Lemma recommendations_none (scores : list (pystr * Z)) :
  Forall (λ item, ¬ 1 ≤ item.2 ≤ 3) scores →
  Recommendations.recommendations scores = []
  ∧ SupportOverview.support_recommendations scores = [].
Proof.
  unfold Recommendations.recommendations, SupportOverview.support_recommendations.
  induction 1 as [|[subdomain score] scores Hout _ [IH1 IH2]]; [done|].
  cbn [snd] in Hout. cbn [omap list_omap]. rewrite IH1, IH2.
  unfold Recommendations.recommend, SupportOverview.recommend.
  rewrite (advice_lookup_none subdomain score Hout).
  rewrite (support_lookup_none subdomain score Hout).
  split; by destruct (score <=? 3).
Qed.

(** C6. Both tables hold an entry with a non-empty text for each of the
    eight subdomains at the scores 1, 2 and 3, and none at 0, 4 or 5 for any
    subdomain; so whenever every extracted score is 0, 4 or 5, each of the two
    renderers returns normally with its congratulatory image, which has no
    data row. *)
Theorem advice_lookup_and_fallback :
  (∀ subdomain score,
     subdomain ∈ Recommendations.field_mapping.*2 → score ∈ [1; 2; 3] →
     ∃ a s,
       Recommendations.advice_mapping !! (subdomain, score) = Some a
       ∧ Recommendations.advice a ≠ []
       ∧ SupportOverview.support_mapping !! (subdomain, score) = Some s
       ∧ SupportOverview.description s ≠ [])
  ∧ (∀ subdomain score,
       score ∈ [0; 4; 5] →
       Recommendations.advice_mapping !! (subdomain, score) = None
       ∧ SupportOverview.support_mapping !! (subdomain, score) = None)
  ∧ (∀ payload scores,
       Recommendations.subdomain_scores payload = Ok scores →
       Forall (λ item, item.2 ∈ [0; 4; 5]) scores →
       Recommendations.create_concrete_recommendations_report payload
       = Ok (Congratulations Recommendations.congratulations)
       ∧ data_rows (Congratulations (row := Recommendations.table_row)
                      Recommendations.congratulations) = [])
  ∧ (∀ payload scores,
       SupportOverview.subdomain_scores payload = Ok scores →
       Forall (λ item, item.2 ∈ [0; 4; 5]) scores →
       SupportOverview.create_support_overview_report payload
       = Ok (Congratulations SupportOverview.congratulations)
       ∧ data_rows (Congratulations (row := SupportOverview.table_row)
                      SupportOverview.congratulations) = []).
Proof.
  assert (Hout : ∀ scores : list (pystr * Z),
            Forall (λ item, item.2 ∈ [0; 4; 5]) scores →
            Forall (λ item, ¬ 1 ≤ item.2 ≤ 3) scores).
  { intros scores. apply Forall_impl. intros [sd sc] Hin. cbn [snd] in *.
    set_unfold in Hin. lia. }
  split; [|split; [|split]].
  - intros subdomain score Hsub Hscore.
    assert (Hall :
      forallb (λ sd,
        forallb (λ sc,
          match Recommendations.advice_mapping !! (sd, sc),
                SupportOverview.support_mapping !! (sd, sc) with
          | Some a, Some s =>
              nonempty (Recommendations.advice a)
              && nonempty (SupportOverview.description s)
          | _, _ => false
          end) [1; 2; 3]) (Recommendations.field_mapping.*2) = true)
      by (vm_compute; reflexivity).
    rewrite forallb_forall in Hall.
    apply list_elem_of_In in Hsub. specialize (Hall _ Hsub).
    rewrite forallb_forall in Hall.
    apply list_elem_of_In in Hscore. specialize (Hall _ Hscore).
    destruct (Recommendations.advice_mapping !! _) as [a|]; [|discriminate].
    destruct (SupportOverview.support_mapping !! _) as [s|]; [|discriminate].
    exists a, s. apply andb_prop in Hall as [Ha Hs].
    repeat split; [by destruct (Recommendations.advice a)
                  |by destruct (SupportOverview.description s)].
  - intros subdomain score Hscore.
    assert (¬ 1 ≤ score ≤ 3) by (set_unfold in Hscore; lia).
    split; [by apply advice_lookup_none|by apply support_lookup_none].
  - intros payload scores Hextract Hall. split; [|reflexivity].
    unfold Recommendations.create_concrete_recommendations_report.
    rewrite Hextract. cbn [mbind result_bind].
    by rewrite (proj1 (recommendations_none scores (Hout _ Hall))).
  - intros payload scores Hextract Hall. split; [|reflexivity].
    unfold SupportOverview.create_support_overview_report.
    rewrite Hextract. cbn [mbind result_bind].
    by rewrite (proj2 (recommendations_none scores (Hout _ Hall))).
Qed.

(** ** Score extraction in the two tables *)

(** C1. On the payload with [Governance_Q1_Numeric] = 1 and the seven other
    numeric fields at 5, the recommendations renderer reads only the four
    numeric fields it lists, finds no score of 3 or less and returns its
    congratulatory image, without any data row; the support overview reads
    all eight on the same payload and has the one row of "Visie op passende
    zorg" at score 1, and the row the recommendations table would show for
    that score is the one of the advice table. *)
Theorem one_low_score_recommendations :
  Recommendations.subdomain_scores payload_one_low
  = Ok [ (py "Regionale samenwerking", 5); (py "Tools en platforms", 5);
         (py "Outcomegericht werken", 5); (py "Monitoring en besluitvorming", 5) ]
  ∧ Recommendations.create_concrete_recommendations_report payload_one_low
    = Ok (Congratulations Recommendations.congratulations)
  ∧ data_rows <$> Recommendations.create_concrete_recommendations_report payload_one_low
    = Ok []
  ∧ (λ t, SupportOverview.row_rec <$> data_rows t)
      <$> SupportOverview.create_support_overview_report payload_one_low
    = Ok [ {| SupportOverview.sup_subdomain := py "Visie op passende zorg";
              SupportOverview.sup_support_type := py "Training";
              SupportOverview.sup_description :=
                py "Startsessie of training: visie, netwerk of dashboard opzetten.";
              SupportOverview.sup_score := 1 |} ]
  ∧ Recommendations.recommendations [ (py "Visie op passende zorg", 1) ]
    = [ {| Recommendations.rec_subdomain := py "Visie op passende zorg";
           Recommendations.rec_domain := py "Governance";
           Recommendations.rec_score := 1;
           Recommendations.rec_advice :=
             py "Faciliteer een visie- en inspiratiesessie met stakeholders.";
           Recommendations.rec_support :=
             py "Startsessie of training: visie, netwerk of dashboard opzetten.";
           Recommendations.rec_support_type := py "Training" |} ].
Proof. vm_compute. repeat split. Qed.

(** C3. On a payload that answers "Visie op passende zorg" as the text
    "2. ..." and as the numeric field 4, the recommendations table filters on
    the score 2 of the text, and shows a row for it, while the support
    overview filters on the numeric 4 and shows none. *)
Theorem both_encodings_scores :
  Recommendations.subdomain_scores payload_both_encodings
  = Ok [ (py "Visie op passende zorg", 2) ]
  ∧ SupportOverview.subdomain_scores payload_both_encodings
    = Ok [ (py "Visie op passende zorg", 4) ]
  ∧ (λ t, Recommendations.rec_score ∘ Recommendations.row_rec <$> data_rows t)
      <$> Recommendations.create_concrete_recommendations_report payload_both_encodings
    = Ok [ 2 ]
  ∧ data_rows <$> SupportOverview.create_support_overview_report payload_both_encodings
    = Ok [].
Proof. vm_compute. repeat split. Qed.

(** ** Text cleaning *)

(** C8. Cleaning a text whose line breaks are separated by lines of blanks
    leaves three line breaks in a row, and cleaning the result once more
    removes one of them: the second pass changes the text. *)
Theorem clean_text_second_pass_differs :
  clean_text text_blank_lines = py "a" ++ [NEWLINE; NEWLINE; NEWLINE] ++ py "b"
  ∧ clean_text (clean_text text_blank_lines) = py "a" ++ [NEWLINE; NEWLINE] ++ py "b"
  ∧ contains [NEWLINE; NEWLINE; NEWLINE] (clean_text text_blank_lines) = true
  ∧ clean_text (clean_text text_blank_lines) ≠ clean_text text_blank_lines.
Proof. vm_compute. repeat split. discriminate. Qed.

(** ** A malformed score text *)

Section MalformedText.

Variable payload : payload_t.
Variable otherwise : pystr → list (pystr * Z) → result (list (pystr * Z)).


End MalformedText.


Section GuardedSteps.

Context {image : Type}.
Implicit Types (p : presentation image) (f : slide image → result (slide image)).

Lemma on_slide_length k f p p' : on_slide k f p = Ok p' → length p' = length p.
Proof.
  unfold on_slide. destruct (p !! k) as [s|]; [|discriminate].
  destruct (f s) as [s'|]; [|discriminate].
  cbn [mbind result_bind mret result_ret]. intros [= <-]. apply length_insert.
Qed.

Lemma if_slide_length k f p p' : if_slide k f p = Ok p' → length p' = length p.
Proof.
  unfold if_slide. destruct (k <? length p)%nat.
  - apply on_slide_length.
  - by intros [= <-].
Qed.


End GuardedSteps.





(** ** Slides that the template does not have *)

Lemma nie_ok {A} (a : A) : no_index_error (Ok a).
Proof. discriminate. Qed.

Lemma nie_bind {A B} (m : result A) (k : A → result B) :
  no_index_error m → (∀ a, no_index_error (k a)) → no_index_error (m ≫= k).
Proof.
  destruct m as [a|e]; intros Hm Hk; [apply Hk|].
  intros [= ->]. by apply Hm.
Qed.

Lemma nie_fmap {A B} (g : A → B) (m : result A) :
  no_index_error m → no_index_error (g <$> m).
Proof. destruct m as [a|e]; intros Hm; [discriminate|]. intros [= ->]. by apply Hm. Qed.

Lemma nie_mapM {A B} (f : A → result B) (l : list A) :
  (∀ x, no_index_error (f x)) → no_index_error (mapM f l).
Proof.
  intros Hf. induction l as [|x l IH]; [apply nie_ok|].
  cbn [mapM]. apply nie_bind; [apply Hf|]. intros y.
  apply nie_bind; [apply IH|]. intros ys. apply nie_ok.
Qed.

Lemma py_int_nie v : no_index_error (py_int v).
Proof.
  destruct v as [s|n|[q| |]|b| |]; cbn [py_int]; try discriminate.
  destruct (int_of_str s); discriminate.
Qed.

Lemma py_float_nie float_of_str v : no_index_error (py_float float_of_str v).
Proof.
  destruct v as [s|n|f|b| |]; cbn [py_float]; try discriminate.
  destruct (float_of_str s); discriminate.
Qed.


Lemma numeric_scores_loop_nie payload fields acc :
  no_index_error (numeric_scores_loop payload fields acc).
Proof.
  revert acc. induction fields as [|[f sd] fields IH]; intros acc; [apply nie_ok|].
  cbn [numeric_scores_loop]. destruct (payload !! f); [|apply IH].
  apply nie_bind; [apply py_int_nie|]. intros; apply IH.
Qed.

Lemma text_scores_loop_nie payload otherwise fields acc :
  (∀ f a, no_index_error (otherwise f a)) →
  no_index_error (text_scores_loop payload otherwise fields acc).
Proof.
  intros Ho. revert acc. induction fields as [|[f sd] fields IH]; intros acc; [apply nie_ok|].
  cbn [text_scores_loop]. apply nie_bind; [|intros; apply IH].
  destruct (payload !! f) as [[t| | | | |]|]; try apply Ho; [|apply nie_ok].
  destruct (nonempty (strip t)); [|apply Ho].
  apply nie_bind; [apply py_int_nie|]. intros; apply nie_ok.
Qed.

Lemma numeric_suffix_branch_nie payload f a :
  no_index_error (Recommendations.numeric_suffix_branch payload f a).
Proof.
  unfold Recommendations.numeric_suffix_branch.
  destruct (_ && _); [|apply nie_ok].
  destruct (payload !! f); [|discriminate].
  apply nie_bind; [apply py_int_nie|]. intros; apply nie_ok.
Qed.

Lemma recommendations_report_nie payload :
  no_index_error (Recommendations.create_concrete_recommendations_report payload).
Proof.
  unfold Recommendations.create_concrete_recommendations_report, Recommendations.subdomain_scores.
  apply nie_bind; [|intros; apply nie_ok].
  apply nie_bind; [|intros; apply numeric_scores_loop_nie].
  apply text_scores_loop_nie. intros; apply numeric_suffix_branch_nie.
Qed.

Lemma support_report_nie payload :
  no_index_error (SupportOverview.create_support_overview_report payload).
Proof.
  unfold SupportOverview.create_support_overview_report, SupportOverview.subdomain_scores.
  apply nie_bind; [|intros; apply nie_ok].
  apply nie_bind; [|intros; apply numeric_scores_loop_nie].
  apply text_scores_loop_nie. intros; apply nie_ok.
Qed.

Lemma breakdown_loop_nie payload fields total acc :
  no_index_error (breakdown_loop payload fields total acc).
Proof.
  revert total acc. induction fields as [|[[d sd] f] fields IH]; intros total acc; [apply nie_ok|].
  cbn [breakdown_loop]. destruct (payload !! f); [|apply IH].
  apply nie_bind; [apply py_int_nie|]. intros; apply IH.
Qed.

Lemma chart_steps_nie float_of_str payload k f s :
  (k, f) ∈ chart_steps float_of_str payload → no_index_error (f s).
Proof.
  unfold chart_steps. intros Hin.
  repeat (apply elem_of_cons in Hin as [[= -> ->]|Hin]); [..|by apply elem_of_nil in Hin].
  - unfold add_score_breakdown_to_slide4, create_score_breakdown_chart.
    apply nie_bind; [|intros; apply nie_ok].
    apply nie_bind; [apply breakdown_loop_nie|]. intros [? ?]; apply nie_ok.
  - unfold add_domain_scores_chart, calculate_domain_data, create_domain_scores_table.
    apply nie_bind.
    { apply nie_mapM. intros [[? ?] ?]. apply nie_bind; [apply py_float_nie|intros; apply nie_ok]. }
    intros data. apply nie_bind; [|intros; apply nie_ok].
    apply nie_mapM. intros [[? sc] ?]. apply nie_bind; [|intros; apply nie_ok].
    destruct sc; discriminate.
  - unfold add_detailed_reports_to_slide6, create_domain_subdomain_report, create_spider_chart_report.
    apply nie_bind.
    { apply nie_mapM. intros [[? ?] ?]. apply nie_bind; [apply py_int_nie|intros; apply nie_ok]. }
    intros rep. apply nie_bind; [|intros; apply nie_ok].
    apply nie_mapM. intros [? ?]. apply nie_bind; [apply py_int_nie|intros; apply nie_ok].
  - unfold add_concrete_recommendations_to_slide7.
    apply nie_bind; [apply recommendations_report_nie|intros; apply nie_ok].
  - unfold add_support_overview_to_slide8.
    apply nie_bind; [apply support_report_nie|intros; apply nie_ok].
Qed.

Section Steps.
Context {image : Type}.
Implicit Types (p : list (slide image)) (f : slide image → result (slide image)).
Implicit Types (steps : list (nat * (slide image → result (slide image)))).

Lemma replace_value_nie placeholder value text :
  no_index_error (replace_value placeholder value text).
Proof. destruct value; discriminate. Qed.

Lemma substitute_paragraph_nie replacements text new_text needs :
  no_index_error (substitute_paragraph replacements text new_text needs).
Proof.
  revert new_text needs.
  induction replacements as [|[ph v] replacements IH]; intros new_text needs;
    [apply nie_ok|].
  cbn [substitute_paragraph]. destruct (contains ph text); [|apply IH].
  apply nie_bind; [apply replace_value_nie|]. intros; apply IH.
Qed.

Lemma substitute_plain_nie replacements new_text :
  no_index_error (substitute_plain replacements new_text).
Proof.
  revert new_text.
  induction replacements as [|[ph v] replacements IH]; intros new_text;
    [apply nie_ok|].
  cbn [substitute_plain]. destruct (contains ph new_text); [|apply IH].
  apply nie_bind; [apply replace_value_nie|]. intros; apply IH.
Qed.

Lemma replace_in_slide_nie replacements (s : slide image) :
  no_index_error (replace_in_slide replacements s).
Proof.
  unfold replace_in_slide. apply nie_bind; [|intros; apply nie_ok].
  apply nie_mapM. intros [paragraphs|text| |]; cbn [replace_in_shape];
    try apply nie_ok.
  - apply nie_fmap, nie_mapM. intros par. unfold replace_in_paragraph.
    apply nie_bind; [apply substitute_paragraph_nie|]. intros [? ?]; apply nie_ok.
  - apply nie_bind; [apply substitute_plain_nie|]. intros; apply nie_ok.
Qed.

Lemma on_slide_nie k f p :
  (k < length p)%nat → (∀ s, no_index_error (f s)) → no_index_error (on_slide k f p).
Proof.
  intros Hk Hf. unfold on_slide.
  destruct (lookup_lt_is_Some_2 p k Hk) as [s ->].
  apply nie_bind; [apply Hf|]. intros; apply nie_ok.
Qed.

Lemma run_steps_nie steps p :
  (∀ k f, (k, f) ∈ steps → (k < length p)%nat ∧ ∀ s, no_index_error (f s)) →
  no_index_error (run_steps steps p).
Proof.
  revert p. induction steps as [|[k f] steps IH]; intros p Hsteps; [apply nie_ok|].
  cbn [run_steps]. destruct (Hsteps k f ltac:(left)) as [Hk Hf].
  destruct (on_slide k f p) as [p'|e] eqn:E.
  - cbn [mbind result_bind]. apply IH. intros k' f' Hin.
    rewrite (on_slide_length _ _ _ _ E). apply Hsteps. by right.
  - pose proof (on_slide_nie k f p Hk Hf) as Hnie. rewrite E in Hnie.
    intros [= ->]. by apply Hnie.
Qed.

Lemma run_steps_length steps p p' :
  run_steps steps p = Ok p' → length p' = length p.
Proof.
  revert p. induction steps as [|[k f] steps IH]; intros p; cbn [run_steps].
  - by intros [= <-].
  - destruct (on_slide k f p) as [p1|e] eqn:E; [|discriminate].
    cbn [mbind result_bind]. intros Hrun.
    rewrite (IH _ Hrun). by apply on_slide_length in E.
Qed.

Lemma guarded_steps_filter steps p :
  guarded_steps steps p
  = run_steps (filter (λ st, (st.1 < length p)%nat) steps) p.
Proof.
  revert p. induction steps as [|[k f] steps IH]; intros p; [reflexivity|].
  cbn [guarded_steps]. rewrite filter_cons. cbn [fst]. unfold if_slide.
  destruct (decide (k < length p)%nat) as [Hk|Hk].
  - apply Nat.ltb_lt in Hk as ->. cbn [run_steps].
    destruct (on_slide k f p) as [p'|e] eqn:E; [|reflexivity].
    cbn [mbind result_bind]. rewrite IH.
    by rewrite (on_slide_length _ _ _ _ E).
  - apply Nat.ltb_nlt in Hk as ->. cbn [mbind result_bind]. apply IH.
Qed.

End Steps.

Lemma process_slides_guarded todo (p : presentation image) :
  process_slides todo p = guarded_steps (substitution_steps todo) p.
Proof.
  revert p. induction todo as [|[k r] todo IH]; intros p; [reflexivity|].
  cbn [process_slides substitution_steps fmap list_fmap guarded_steps].
  destruct (if_slide k _ p); [|reflexivity]. cbn [mbind result_bind]. apply IH.
Qed.

Lemma add_charts_guarded float_of_str (p : presentation image) payload :
  add_charts_to_slides float_of_str p payload = guarded_steps (chart_steps float_of_str payload) p.
Proof.
  unfold add_charts_to_slides, chart_steps. cbn [guarded_steps].
  repeat (match goal with
          | |- context [if_slide ?k ?f ?q] => destruct (if_slide k f q); [|reflexivity]
          end; cbn [mbind result_bind]).
  reflexivity.
Qed.

Lemma prepare_values_nie repr_other report_date payload :
  no_index_error (prepare_values repr_other report_date payload).
Proof.
  unfold prepare_values. apply nie_bind.
  { unfold get_transitiefase. apply nie_bind; [apply py_int_nie|intros; apply nie_ok]. }
  intros fase. apply nie_bind; [|intros; apply nie_ok].
  unfold get_lowest_scoring_domains. apply nie_bind; [|intros; apply nie_ok].
  generalize (@nil pystr). generalize keywords.
  induction l as [|[key kw] l IH]; intros acc; [apply nie_ok|].
  cbn [low_scoring_loop]. apply nie_bind; [apply py_int_nie|]. intros; apply IH.
Qed.

(** C9. Image placement and placeholder substitution each do, on a document
    of N slides, exactly what running their steps for the target slides with
    index below N does, in the same order: a target slide that is missing is
    passed over and the later targets are still processed.  Neither ever
    fails with the error of indexing a missing slide, and a run that succeeds
    returns a document of N slides. *)
Theorem missing_slides_are_skipped (float_of_str : pystr → option pyfloat)
    (repr_other : jvalue → pystr) (report_date : pystr)
    (p : presentation image) (payload : payload_t) :
  add_charts_to_slides float_of_str p payload
  = run_steps (filter (λ st, (st.1 < length p)%nat)
                      (chart_steps float_of_str payload)) p
  ∧ replace_placeholders repr_other report_date p payload
    = (v ← prepare_values repr_other report_date payload;
       run_steps (filter (λ st, (st.1 < length p)%nat)
                         (substitution_steps (slide_replacements repr_other v))) p)
  ∧ no_index_error (add_charts_to_slides float_of_str p payload)
  ∧ no_index_error (replace_placeholders repr_other report_date p payload)
  ∧ (∀ p', add_charts_to_slides float_of_str p payload = Ok p' →
           length p' = length p)
  ∧ (∀ p', replace_placeholders repr_other report_date p payload = Ok p' →
           length p' = length p).
Proof.
  assert (Hcharts :
    add_charts_to_slides float_of_str p payload
    = run_steps (filter (λ st, (st.1 < length p)%nat)
                        (chart_steps float_of_str payload)) p)
    by (rewrite add_charts_guarded; apply guarded_steps_filter).
  assert (Hsubst :
    replace_placeholders repr_other report_date p payload
    = (v ← prepare_values repr_other report_date payload;
       run_steps (filter (λ st, (st.1 < length p)%nat)
                         (substitution_steps (slide_replacements repr_other v))) p)).
  { unfold replace_placeholders.
    destruct (prepare_values _ _ _) as [v|e]; [|reflexivity].
    cbn [mbind result_bind].
    rewrite process_slides_guarded. apply guarded_steps_filter. }
  split; [exact Hcharts|]. split; [exact Hsubst|].
  rewrite Hcharts, Hsubst. repeat split.
  - apply run_steps_nie. intros k f Hin.
    apply list_elem_of_filter in Hin as [Hk Hin]. split; [exact Hk|].
    intros s. by apply (chart_steps_nie float_of_str payload k).
  - apply nie_bind; [apply prepare_values_nie|]. intros v.
    apply run_steps_nie. intros k f Hin.
    apply list_elem_of_filter in Hin as [Hk Hin]. split; [exact Hk|].
    intros s. unfold substitution_steps in Hin.
    apply list_elem_of_fmap in Hin as ([k' r] & [= -> ->] & _).
    apply replace_in_slide_nie.
  - intros p'. apply run_steps_length.
  - intros p'. destruct (prepare_values _ _ _) as [v|e]; [|discriminate].
    cbn [mbind result_bind]. apply run_steps_length.
Qed.

(** ** Word wrapping *)

Local Open Scope nat_scope.

Lemma split_not_nil sep s : split sep s ≠ [].
Proof.
  destruct s as [|c s]; cbn [split]; [discriminate|].
  destruct (c =? sep)%N; [discriminate|]. destruct (split sep s); discriminate.
Qed.

Lemma join_cons sep x l : l ≠ [] → join sep (x :: l) = x ++ sep ++ join sep l.
Proof. by destruct l. Qed.

Lemma join_split sep s : join [sep] (split sep s) = s.
Proof.
  induction s as [|c s IH]; [reflexivity|]. cbn [split].
  pose proof (split_not_nil sep s) as Hnil.
  destruct (N.eqb_spec c sep) as [->|Hne].
  - rewrite join_cons by done. by rewrite IH.
  - destruct (split sep s) as [|w ws]; [done|].
    destruct ws as [|w' ws].
    + cbn [join] in *. by rewrite IH.
    + rewrite join_cons in * by done. rewrite <- IH. reflexivity.
Qed.

Lemma join_snoc sep ws w :
  ws ≠ [] → join sep (ws ++ [w]) = join sep ws ++ sep ++ w.
Proof.
  induction ws as [|x ws IH]; [done|]. intros _.
  destruct ws as [|y ws]; [reflexivity|].
  rewrite <- app_comm_cons, !join_cons by done.
  rewrite IH by done. by rewrite <- !app_assoc.
Qed.

Lemma nonempty_true s : nonempty s = true ↔ s ≠ [].
Proof. destruct s; cbn; split; intros; done. Qed.

Lemma nonempty_false s : nonempty s = false ↔ s = [].
Proof. destruct s; cbn; split; intros; done. Qed.

Lemma wrap_loop_ok limit words todo done current wrapped :
  words = done ++ todo →
  Forall (wrapped_line_ok limit words) wrapped →
  pending_line_ok limit done current →
  Forall (wrapped_line_ok limit words) (wrap_loop limit todo current wrapped).1
  ∧ pending_line_ok limit words (wrap_loop limit todo current wrapped).2.
Proof.
  revert done current wrapped.
  induction todo as [|word todo IH]; intros done current wrapped Hwords Hwrapped Hcur.
  { rewrite app_nil_r in Hwords. subst done. by split. }
  cbn [wrap_loop].
  assert (Hwords' : words = (done ++ [word]) ++ todo) by (by rewrite <- app_assoc).
  (* the line that holds [word] alone *)
  assert (Halone : pending_line_ok limit (done ++ [word]) word).
  { destruct word as [|c word]; [by left|]. right.
    exists done, [c :: word]. repeat split; [done|].
    destruct (decide (length (c :: word) ≤ limit)); [by left|right].
    exists (c :: word). split; [done|lia]. }
  destruct (nonempty current) eqn:Hne.
  - apply nonempty_true in Hne.
    destruct Hcur as [->|(before & ws & Hdone & Hws & Hjoin & Hlen)]; [done|].
    destruct (Nat.leb_spec (length (current ++ [SPACE] ++ word)) limit) as [Hfit|Hlong].
    + apply (IH (done ++ [word])); [done..|]. right.
      exists before, (ws ++ [word]). repeat split.
      * by rewrite Hdone, app_assoc.
      * by destruct ws.
      * rewrite join_snoc by done. by rewrite Hjoin.
      * by left.
    + apply (IH (done ++ [word])); [done| |done].
      apply Forall_app. split; [done|]. apply Forall_singleton.
      exists before, ws, (word :: todo). repeat split; [|done..].
      by rewrite Hwords, Hdone, <- app_assoc.
  - apply nonempty_false in Hne. subst current.
    destruct (Nat.leb_spec (length word) limit) as [Hfit|Hlong];
      by apply (IH (done ++ [word])).
Qed.

(** C7. For every text, each line drawn in the advice column (width 45)
    and in the description column (width 60) is a run of consecutive words of
    the text joined by single spaces, and is at most as long as the width
    unless it consists of one word that is itself longer than the width. *)
Theorem wrapped_lines_within_width (data : pystr) :
  Forall (wrapped_line_ok ADVICE_WIDTH (split SPACE data)) (cell_lines ADVICE_WIDTH data)
  ∧ Forall (wrapped_line_ok DESCRIPTION_WIDTH (split SPACE data))
           (cell_lines DESCRIPTION_WIDTH data).
Proof.
  assert (Hany : ∀ limit,
    Forall (wrapped_line_ok limit (split SPACE data)) (cell_lines limit data)).
  { intros limit. unfold cell_lines.
    destruct (Nat.ltb_spec limit (length data)) as [Hlong|Hfit].
    - unfold wrap_words.
      pose proof (wrap_loop_ok limit (split SPACE data) (split SPACE data) [] [] []
                    eq_refl (Forall_nil_2 _) (or_introl eq_refl)) as [Hw Hc].
      destruct (wrap_loop _ _ _ _) as [wrapped current]. cbn [fst snd] in Hw, Hc.
      destruct (nonempty current) eqn:Hne; [|done].
      apply nonempty_true in Hne.
      destruct Hc as [->|(before & ws & Hdone & Hws & Hjoin & Hlen)]; [done|].
      apply Forall_app. split; [done|]. apply Forall_singleton.
      exists before, ws, []. by rewrite app_nil_r.
    - apply Forall_singleton. exists [], (split SPACE data), [].
      rewrite app_nil_r, join_split. repeat split; [apply split_not_nil|by left]. }
  split; apply Hany.
Qed.


(** ** The cleaning loops terminate *)

Section ReplaceShrinks.

Variables old new : pystr.
Hypothesis old_longer : length new < length old.

Lemma starts_with_length s : starts_with old s = true → length old ≤ length s.
Proof.
  clear old_longer. revert s. induction old as [|a o IH]; intros s; [cbn; lia|].
  destruct s as [|b s]; cbn [starts_with]; [discriminate|].
  intros [_ H]%andb_prop. apply IH in H. cbn [length]. lia.
Qed.

Lemma replace_from_length skip s :
  length (replace_from old new skip s) ≤ length s - skip.
Proof.
  revert skip. induction s as [|c s IH]; intros skip; [cbn; lia|].
  cbn [replace_from]. destruct skip as [|k].
  - destruct (starts_with old (c :: s)) eqn:E.
    + apply starts_with_length in E. rewrite length_app.
      specialize (IH (Nat.pred (length old))). cbn [length] in *. lia.
    + cbn [length]. specialize (IH 0). lia.
  - specialize (IH k). cbn [length]. lia.
Qed.

Lemma replace_shrinks s :
  contains old s = true → length (replace old new s) < length s.
Proof.
  unfold replace. induction s as [|c s IH]; cbn [contains replace_from].
  - rewrite orb_false_r. intros E. apply starts_with_length in E. cbn [length] in E. lia.
  - destruct (starts_with old (c :: s)) eqn:E; cbn [orb].
    + intros _. apply starts_with_length in E. rewrite length_app.
      pose proof (replace_from_length (Nat.pred (length old)) s).
      cbn [length] in *. lia.
    + intros H. specialize (IH H). cbn [length]. lia.
Qed.

Lemma replace_while_done fuel s :
  length s ≤ fuel → contains old (replace_while fuel old new s) = false.
Proof.
  revert s. induction fuel as [|fuel IH]; intros s Hfuel; cbn [replace_while].
  - destruct (contains old s) eqn:E; [|done].
    apply replace_shrinks in E. lia.
  - destruct (contains old s) eqn:E; [|done].
    apply IH. apply replace_shrinks in E. lia.
Qed.

End ReplaceShrinks.

(** The two loops of [clean_text] are given enough passes: they stop with
    no occurrence left. *)
Lemma clean_text_loops_done (cleaned line : pystr) :
  contains [NEWLINE; NEWLINE; NEWLINE]
    (replace_while (length cleaned) [NEWLINE; NEWLINE; NEWLINE]
                   [NEWLINE; NEWLINE] cleaned) = false
  ∧ contains [SPACE; SPACE]
      (replace_while (length line) [SPACE; SPACE] [SPACE] line) = false.
Proof. split; apply replace_while_done; cbn; lia. Qed.

(** ** Numeric fields that the tables do read *)



Section NumericPrecedence.

Variable payload : payload_t.



End NumericPrecedence.



(** ** Row heights *)

Lemma count_loop_wrap_loop limit words current wrapped :
  count_loop limit words current (length wrapped)
  = (length (wrap_loop limit words current wrapped).1,
     (wrap_loop limit words current wrapped).2).
Proof.
  revert current wrapped. induction words as [|word words IH]; intros current wrapped;
    [reflexivity|].
  cbn [count_loop wrap_loop].
  destruct (length _ <=? limit); [apply IH|].
  destruct (nonempty current); [|apply IH].
  rewrite <- IH. by rewrite length_app, Nat.add_1_r.
Qed.

(** The line count that sizes a row is the number of lines drawn in its
    wrapping cell. *)
Theorem row_height_counts_drawn_lines (limit : nat) (text : pystr) :
  max_lines limit text = Nat.max 1 (length (cell_lines limit text)).
Proof.
  unfold max_lines, cell_lines, wrap_words.
  destruct (limit <? length text); [|reflexivity].
  change 0 with (length (@nil pystr)). rewrite count_loop_wrap_loop.
  destruct (wrap_loop _ _ _ _) as [wrapped current]. cbn [fst snd].
  destruct (nonempty current); [|reflexivity].
  by rewrite length_app, Nat.add_1_r.
Qed.

Local Close Scope nat_scope.

(** * Further properties of the code *)

Lemma truncate_nonneg_bounds (q : Q) :
  (0 <= q)%Q → (inject_Z (truncate q) <= q < inject_Z (truncate q) + 1)%Q ∧ 0 ≤ truncate q.
Proof.
  intros H. rewrite (truncate_floor q H). split; [split|].
  - apply Qfloor_le.
  - pose proof (Qlt_floor q) as Hlt. rewrite inject_Z_plus in Hlt. exact Hlt.
  - change 0 with (Qfloor 0). by apply Qfloor_resp_le.
Qed.

Lemma truncate_opp (q : Q) : truncate (- q) = - truncate q.
Proof. destruct q as [n d]. unfold truncate. cbn [Qopp Qnum Qden]. apply Z.quot_opp_l. lia. Qed.

Lemma truncate_nonpos_bounds (q : Q) :
  (q <= 0)%Q → (inject_Z (truncate q) - 1 < q <= inject_Z (truncate q))%Q ∧ truncate q ≤ 0.
Proof.
  intros H.
  assert (H' : (0 <= - q)%Q) by lra.
  destruct (truncate_nonneg_bounds (- q) H') as [[Hlo Hhi] Hpos].
  rewrite truncate_opp in Hlo, Hhi, Hpos. rewrite inject_Z_opp in Hlo, Hhi.
  repeat split; [lra|lra|lia].
Qed.

Lemma normalized_half (s : Q) : (s / 10 * 5 == s * (1 # 2))%Q.
Proof. unfold Qdiv. change (/ 10)%Q with (1 # 10)%Q. ring. Qed.

Lemma star_rating_length (s : Q) :
  let norm := (s / 10 * 5)%Q in
  let full := truncate norm in
  let half := if Qle_bool (1 # 2) (norm - inject_Z full) then 1 else 0 in
  length (glyphs (generate_star_rating s))
  = (Z.to_nat full + Z.to_nat half + Z.to_nat (5 - full - half))%nat.
Proof.
  intros norm full half. unfold generate_star_rating. cbn [glyphs].
  fold norm. fold full. fold half.
  rewrite !length_app, !length_times.
  destruct (Qle_bool (1 # 2) (norm - inject_Z full)); subst half; cbn; lia.
Qed.

Theorem star_rating_glyph_count (s : Q) :
  length (glyphs (generate_star_rating s)) = 5%nat ↔ (-2 < s < 11)%Q.
Proof.
  rewrite star_rating_length. cbv zeta.
  pose proof (normalized_half s) as Hnorm.
  set (norm := (s / 10 * 5)%Q) in *.
  set (full := truncate norm).
  destruct (Qlt_le_dec norm 0) as [Hneg|Hpos].
  - destruct (truncate_nonpos_bounds norm) as [[Hlo Hhi] Hfull]; [lra|].
    fold full in Hlo, Hhi, Hfull.
    assert (Qle_bool (1 # 2) (norm - inject_Z full) = false) as ->.
    { apply not_true_is_false. rewrite Qle_bool_iff. lra. }
    split.
    + intros Hlen. assert (full = 0) as Hz by lia. rewrite Hz in Hlo.
      change (inject_Z 0) with 0%Q in Hlo. lra.
    + intros [Hs _]. assert (Hgt : (inject_Z (-1) < inject_Z full)%Q).
      { change (inject_Z (-1)) with (-1)%Q. lra. }
      rewrite <- Zlt_Qlt in Hgt. assert (full = 0) as -> by lia. reflexivity.
  - destruct (truncate_nonneg_bounds norm Hpos) as [[Hlo Hhi] Hfull].
    fold full in Hlo, Hhi, Hfull.
    destruct (Qle_bool (1 # 2) (norm - inject_Z full)) eqn:Hhalf.
    + rewrite Qle_bool_iff in Hhalf. split.
      * intros Hlen. assert (Hf : full ≤ 4) by lia.
        rewrite Zle_Qle in Hf. change (inject_Z 4) with 4%Q in Hf. lra.
      * intros [_ Hs]. assert (Hlt : (inject_Z full < inject_Z 5)%Q).
        { change (inject_Z 5) with 5%Q. lra. }
        rewrite <- Zlt_Qlt in Hlt. lia.
    + apply not_true_iff_false in Hhalf. rewrite Qle_bool_iff in Hhalf. split.
      * intros Hlen. assert (Hf : full ≤ 5) by lia.
        rewrite Zle_Qle in Hf. change (inject_Z 5) with 5%Q in Hf. lra.
      * intros [_ Hs]. assert (Hlt : (inject_Z full < inject_Z 6)%Q).
        { change (inject_Z 6) with 6%Q. lra. }
        rewrite <- Zlt_Qlt in Hlt. lia.
Qed.

Lemma half_circles_app g1 g2 :
  half_circles (g1 ++ g2) = (half_circles g1 + half_circles g2)%nat.
Proof. induction g1 as [|[] g1 IH]; cbn [half_circles app]; lia. Qed.

Lemma half_circles_filled n : half_circles (repeat Filled n) = (2 * n)%nat.
Proof. induction n as [|n IH]; cbn [repeat half_circles]; lia. Qed.

Lemma half_circles_empty n : half_circles (repeat Empty n) = 0%nat.
Proof. induction n as [|n IH]; cbn [repeat half_circles]; lia. Qed.

Lemma Qfloor_unique (q : Q) (k : Z) :
  (inject_Z k <= q < inject_Z k + 1)%Q → Qfloor q = k.
Proof.
  intros [Hlo Hhi].
  assert (k ≤ Qfloor q).
  { rewrite <- (Qfloor_Z k). by apply Qfloor_resp_le. }
  assert (Qfloor q < k + 1).
  { rewrite Zlt_Qlt, inject_Z_plus. pose proof (Qfloor_le q).
    change (inject_Z 1) with 1%Q. lra. }
  lia.
Qed.

Theorem star_rating_shows_floor (s : Q) :
  half_circles (glyphs (generate_star_rating s)) = Z.to_nat (Qfloor s)
  ∧ ∀ s', (s <= s')%Q →
      (half_circles (glyphs (generate_star_rating s))
       ≤ half_circles (glyphs (generate_star_rating s')))%nat.
Proof.
  assert (Hval : ∀ s, half_circles (glyphs (generate_star_rating s))
                      = Z.to_nat (Qfloor s)).
  { clear s. intros s. unfold generate_star_rating. cbn [glyphs].
    pose proof (normalized_half s) as Hnorm.
    set (norm := (s / 10 * 5)%Q) in *. set (full := truncate norm).
    unfold times. rewrite !half_circles_app, half_circles_filled, half_circles_empty.
    destruct (Qlt_le_dec norm 0) as [Hneg|Hpos].
    - destruct (truncate_nonpos_bounds norm) as [[Hlo Hhi] Hfull]; [lra|].
      fold full in Hlo, Hhi, Hfull.
      assert (Qle_bool (1 # 2) (norm - inject_Z full) = false) as ->.
      { apply not_true_is_false. rewrite Qle_bool_iff. lra. }
      cbn [Z.eqb half_circles].
      assert (Qfloor s ≤ 0); [|lia].
      change 0 with (Qfloor 0). apply Qfloor_resp_le. lra.
    - destruct (truncate_nonneg_bounds norm Hpos) as [[Hlo Hhi] Hfull].
      fold full in Hlo, Hhi, Hfull.
      destruct (Qle_bool (1 # 2) (norm - inject_Z full)) eqn:Hhalf; cbn [Z.eqb half_circles].
      + rewrite Qle_bool_iff in Hhalf.
        rewrite (Qfloor_unique s (2 * full + 1)); [lia|].
        rewrite inject_Z_plus, inject_Z_mult.
        change (inject_Z 2) with 2%Q. change (inject_Z 1) with 1%Q. lra.
      + apply not_true_iff_false in Hhalf. rewrite Qle_bool_iff in Hhalf.
        rewrite (Qfloor_unique s (2 * full)); [lia|].
        rewrite inject_Z_mult. change (inject_Z 2) with 2%Q. lra. }
  split; [apply Hval|]. intros s' Hle. rewrite !Hval.
  pose proof (Qfloor_resp_le _ _ Hle). lia.
Qed.

(** *** Keys of the score dictionary *)

Lemma dict_set_keys {V} k (v : V) d :
  (dict_set k v d).*1 = if decide (k ∈ d.*1) then d.*1 else d.*1 ++ [k].
Proof.
  induction d as [|[k' v'] d IH]; [reflexivity|].
  cbn [dict_set]. destruct (decide (k' = k)) as [->|Hne].
  - cbn [fmap list_fmap fst]. rewrite decide_True by left. reflexivity.
  - rewrite fmap_cons, IH. cbn [fst].
    destruct (decide (k ∈ d.*1)) as [Hin|Hnin].
    + rewrite decide_True by (by right). reflexivity.
    + rewrite decide_False; [reflexivity|].
      intros [?|?]%elem_of_cons; [by subst|done].
Qed.

(** A property of the dictionary that holds before a loop holds after it. *)
Section ScoreInvariant.

Variable P : list (pystr * Z) → Prop.
Variable fields_ok : pystr → Prop.
Hypothesis P_set : ∀ k v d, fields_ok k → P d → P (dict_set k v d).
Variable payload : payload_t.

Lemma numeric_scores_loop_inv fields acc scores :
  Forall fields_ok fields.*2 →
  P acc →
  numeric_scores_loop payload fields acc = Ok scores →
  P scores.
Proof.
  revert acc. induction fields as [|[f sd] fields IH]; intros acc Hok Hacc;
    cbn [numeric_scores_loop].
  - by intros [= <-].
  - rewrite fmap_cons in Hok. cbn [snd] in Hok.
    inversion_clear Hok as [|? ? Hsd Hok'].
    destruct (payload !! f) as [v|]; [|by apply IH].
    destruct (py_int v) as [n|]; [|discriminate]. cbn [mbind result_bind].
    apply IH; [done|]. by apply P_set.
Qed.

Lemma text_scores_loop_inv otherwise fields acc scores :
  (∀ f d d', otherwise f d = Ok d' → P d → P d') →
  Forall fields_ok fields.*2 →
  P acc →
  text_scores_loop payload otherwise fields acc = Ok scores →
  P scores.
Proof.
  intros Hother. revert acc.
  induction fields as [|[f sd] fields IH]; intros acc Hok Hacc; cbn [text_scores_loop].
  - by intros [= <-].
  - rewrite fmap_cons in Hok. cbn [snd] in Hok.
    inversion_clear Hok as [|? ? Hsd Hok'].
    match goal with
    | |- ?step ≫= _ = _ → _ => destruct step as [acc'|] eqn:Estep; [|discriminate]
    end.
    cbn [mbind result_bind]. apply IH; [done|].
    destruct (payload !! f) as [[t| | | | |]|];
      try (by eapply Hother); [|by injection Estep as <-].
    destruct (nonempty (strip t)); [|by eapply Hother].
    destruct (py_int _) as [n|]; [|discriminate].
    injection Estep as <-. by apply P_set.
Qed.

End ScoreInvariant.

Lemma nodup_keys_set (k : pystr) (v : Z) (d : list (pystr * Z)) :
  NoDup d.*1 → NoDup (dict_set k v d).*1.
Proof.
  intros Hd. rewrite dict_set_keys. destruct (decide (k ∈ d.*1)); [done|].
  apply list.NoDup_app. repeat split; [done| |apply NoDup_singleton].
  intros x Hx ->%list_elem_of_singleton. done.
Qed.

Lemma recommendations_scores_nodup payload scores :
  Recommendations.subdomain_scores payload = Ok scores → NoDup scores.*1.
Proof.
  unfold Recommendations.subdomain_scores.
  destruct (text_scores_loop _ _ _ _) as [acc|] eqn:Etext; [|discriminate].
  cbn [mbind result_bind]. intros Hnum.
  pose (P := λ d : list (pystr * Z), NoDup d.*1).
  assert (Hset : ∀ k v d, True → P d → P (dict_set k v d))
    by (intros; by apply nodup_keys_set).
  eapply (numeric_scores_loop_inv P (λ _, True) Hset); [|  |exact Hnum].
  { by apply Forall_forall. }
  eapply (text_scores_loop_inv P (λ _, True) Hset); [| | |exact Etext].
  - intros f d d'. unfold Recommendations.numeric_suffix_branch.
    destruct (_ && _); [|by intros [= <-]].
    destruct (payload !! f) as [v|]; [|discriminate].
    destruct (py_int v) as [n|]; [|discriminate].
    unfold mbind, result_bind, mret, result_ret.
    destruct (dict_get _ Recommendations.field_mapping); intros [= <-] Hd;
      [by apply nodup_keys_set|done].
  - by apply Forall_forall.
  - apply NoDup_nil_2.
Qed.

Lemma support_scores_nodup payload scores :
  SupportOverview.subdomain_scores payload = Ok scores → NoDup scores.*1.
Proof.
  unfold SupportOverview.subdomain_scores.
  destruct (text_scores_loop _ _ _ _) as [acc|] eqn:Etext; [|discriminate].
  cbn [mbind result_bind]. intros Hnum.
  pose (P := λ d : list (pystr * Z), NoDup d.*1).
  assert (Hset : ∀ k v d, True → P d → P (dict_set k v d))
    by (intros; by apply nodup_keys_set).
  eapply (numeric_scores_loop_inv P (λ _, True) Hset); [|  |exact Hnum].
  { by apply Forall_forall. }
  eapply (text_scores_loop_inv P (λ _, True) Hset); [| | |exact Etext].
  - by intros f d d' [= <-].
  - by apply Forall_forall.
  - apply NoDup_nil_2.
Qed.

Lemma recommend_sublist scores :
  Recommendations.rec_subdomain <$> Recommendations.recommendations scores
  `sublist_of` scores.*1.
Proof.
  unfold Recommendations.recommendations.
  induction scores as [|[sd sc] scores IH]; [done|].
  cbn [omap list_omap]. rewrite fmap_cons. cbn [fst].
  unfold Recommendations.recommend at 1.
  destruct (sc <=? 3); [|by apply sublist_cons].
  destruct (Recommendations.advice_mapping !! (sd, sc)) as [e|];
    cbn [mbind option_bind]; [|by apply sublist_cons].
  rewrite fmap_cons. cbn [Recommendations.rec_subdomain]. by apply sublist_skip.
Qed.

Lemma support_recommend_sublist scores :
  SupportOverview.sup_subdomain <$> SupportOverview.support_recommendations scores
  `sublist_of` scores.*1.
Proof.
  unfold SupportOverview.support_recommendations.
  induction scores as [|[sd sc] scores IH]; [done|].
  cbn [omap list_omap]. rewrite fmap_cons. cbn [fst].
  unfold SupportOverview.recommend at 1.
  destruct (sc <=? 3); [|by apply sublist_cons].
  destruct (SupportOverview.support_mapping !! (sd, sc)) as [e|];
    cbn [mbind option_bind]; [|by apply sublist_cons].
  rewrite fmap_cons. cbn [SupportOverview.sup_subdomain]. by apply sublist_skip.
Qed.

Lemma advice_key_known sd sc e :
  Recommendations.advice_mapping !! (sd, sc) = Some e →
  sd ∈ Recommendations.field_mapping.*2
  ∧ is_Some (Recommendations.domain_mapping !! sd).
Proof.
  unfold Recommendations.advice_mapping. intros Hlook.
  apply elem_of_list_to_map_2, list_elem_of_In in Hlook.
  assert (Hall : forallb (λ x : pystr * Z * Recommendations.advice_entry,
      bool_decide (x.1.1 ∈ Recommendations.field_mapping.*2)
      && bool_decide (is_Some (Recommendations.domain_mapping !! x.1.1)))
      Recommendations.advice_table = true) by (vm_compute; reflexivity).
  rewrite forallb_forall in Hall. specialize (Hall _ Hlook). cbn [fst] in Hall.
  apply andb_prop in Hall as [H1%bool_decide_eq_true H2%bool_decide_eq_true].
  by split.
Qed.

Lemma support_key_known sd sc e :
  SupportOverview.support_mapping !! (sd, sc) = Some e →
  sd ∈ SupportOverview.field_mapping.*2.
Proof.
  unfold SupportOverview.support_mapping. intros Hlook.
  apply elem_of_list_to_map_2, list_elem_of_In in Hlook.
  assert (Hall : forallb (λ x : pystr * Z * SupportOverview.support_entry,
      bool_decide (x.1.1 ∈ SupportOverview.field_mapping.*2))
      SupportOverview.support_table = true) by (vm_compute; reflexivity).
  rewrite forallb_forall in Hall. specialize (Hall _ Hlook). cbn [fst] in Hall.
  by apply bool_decide_eq_true in Hall.
Qed.

Theorem recommendation_rows_wellformed (payload : payload_t)
    (img : table_image Recommendations.table_row) :
  Recommendations.create_concrete_recommendations_report payload = Ok img →
  Forall (λ row,
      1 ≤ Recommendations.rec_score (Recommendations.row_rec row) ≤ 3
      ∧ Recommendations.rec_subdomain (Recommendations.row_rec row)
          ∈ Recommendations.field_mapping.*2
      ∧ Recommendations.domain_mapping
          !! Recommendations.rec_subdomain (Recommendations.row_rec row)
        = Some (Recommendations.rec_domain (Recommendations.row_rec row))
      ∧ Recommendations.advice_mapping
          !! (Recommendations.rec_subdomain (Recommendations.row_rec row),
              Recommendations.rec_score (Recommendations.row_rec row))
        = Some {| Recommendations.advice :=
                    Recommendations.rec_advice (Recommendations.row_rec row);
                  Recommendations.support :=
                    Recommendations.rec_support (Recommendations.row_rec row);
                  Recommendations.support_type :=
                    Recommendations.rec_support_type (Recommendations.row_rec row) |}
      ∧ row = Recommendations.draw_row (Recommendations.row_rec row))
    (data_rows img)
  ∧ NoDup (Recommendations.rec_subdomain ∘ Recommendations.row_rec <$> data_rows img)
  ∧ (length (data_rows img) ≤ 8)%nat.
Proof.
  unfold Recommendations.create_concrete_recommendations_report.
  destruct (Recommendations.subdomain_scores payload) as [scores|] eqn:Escores;
    [|discriminate].
  unfold mbind, result_bind, mret, result_ret. intros [= <-].
  set (recs := Recommendations.recommendations scores).
  assert (Hrows : data_rows
      match recs with
      | [] => Congratulations Recommendations.congratulations
      | _ :: _ => Table Recommendations.headers (Recommendations.draw_row <$> recs)
      end = Recommendations.draw_row <$> recs) by (by destruct recs).
  rewrite Hrows. clear Hrows.
  assert (Hnames : Recommendations.rec_subdomain ∘ Recommendations.row_rec
                     <$> (Recommendations.draw_row <$> recs)
                   = Recommendations.rec_subdomain <$> recs).
  { rewrite <- list_fmap_compose. by apply list_fmap_ext. }
  assert (Heach : Forall (λ r,
      1 ≤ Recommendations.rec_score r ≤ 3
      ∧ Recommendations.rec_subdomain r ∈ Recommendations.field_mapping.*2
      ∧ Recommendations.domain_mapping !! Recommendations.rec_subdomain r
        = Some (Recommendations.rec_domain r)
      ∧ Recommendations.advice_mapping
          !! (Recommendations.rec_subdomain r, Recommendations.rec_score r)
        = Some {| Recommendations.advice := Recommendations.rec_advice r;
                  Recommendations.support := Recommendations.rec_support r;
                  Recommendations.support_type := Recommendations.rec_support_type r |})
    recs).
  { apply list.Forall_forall. intros r Hr. unfold recs, Recommendations.recommendations in Hr.
    apply list_elem_of_omap in Hr as ([sd sc] & _ & Hrec).
    unfold Recommendations.recommend in Hrec.
    destruct (sc <=? 3); [|discriminate].
    destruct (Recommendations.advice_mapping !! (sd, sc)) as [e|] eqn:Elook;
      [|discriminate].
    cbn [mbind option_bind] in Hrec. injection Hrec as <-.
    cbn [Recommendations.rec_score Recommendations.rec_subdomain
         Recommendations.rec_domain Recommendations.rec_advice
         Recommendations.rec_support Recommendations.rec_support_type].
    destruct (advice_key_known sd sc e Elook) as [Hsd [dom Hdom]].
    pose proof (advice_lookup_score sd sc e Elook) as Hsc.
    split; [exact Hsc|]. split; [exact Hsd|]. split.
    - rewrite Hdom. f_equal. symmetry. exact (f_equal (default []) Hdom).
    - rewrite Elook. by destruct e. }
  split; [|split].
  - apply Forall_fmap. eapply list.Forall_impl; [exact Heach|].
    intros r (H1 & H2 & H3 & H4).
    cbn [Recommendations.row_rec Recommendations.draw_row].
    split; [exact H1|]. split; [exact H2|]. split; [exact H3|].
    split; [exact H4|reflexivity].
  - rewrite Hnames.
    apply (sublist_NoDup _ _ (recommendations_scores_nodup _ _ Escores)),
      recommend_sublist.
  - rewrite length_fmap, <- (length_fmap Recommendations.rec_subdomain).
    change 8%nat with (length (Recommendations.field_mapping.*2)).
    apply submseteq_length, NoDup_submseteq.
    + apply (sublist_NoDup _ _ (recommendations_scores_nodup _ _ Escores)),
        recommend_sublist.
    + intros sd (r & -> & Hr)%list_elem_of_fmap.
      rewrite list.Forall_forall in Heach. by apply Heach.
Qed.

Lemma recommendation_rows_wellformed_witness :
  ∃ img, Recommendations.create_concrete_recommendations_report payload_both_encodings
         = Ok img
         ∧ (length (data_rows img) ≤ 8)%nat.
Proof.
  eexists. split; [vm_compute; reflexivity|].
  refine (proj2 (proj2 (recommendation_rows_wellformed payload_both_encodings _ _))).
  vm_compute. reflexivity.
Defined.

Theorem support_rows_wellformed (payload : payload_t)
    (img : table_image SupportOverview.table_row) :
  SupportOverview.create_support_overview_report payload = Ok img →
  Forall (λ row,
      1 ≤ SupportOverview.sup_score (SupportOverview.row_rec row) ≤ 3
      ∧ SupportOverview.sup_subdomain (SupportOverview.row_rec row)
          ∈ SupportOverview.field_mapping.*2
      ∧ SupportOverview.support_mapping
          !! (SupportOverview.sup_subdomain (SupportOverview.row_rec row),
              SupportOverview.sup_score (SupportOverview.row_rec row))
        = Some {| SupportOverview.support_type :=
                    SupportOverview.sup_support_type (SupportOverview.row_rec row);
                  SupportOverview.description :=
                    SupportOverview.sup_description (SupportOverview.row_rec row) |}
      ∧ row = SupportOverview.draw_row (SupportOverview.row_rec row))
    (data_rows img)
  ∧ NoDup (SupportOverview.sup_subdomain ∘ SupportOverview.row_rec <$> data_rows img)
  ∧ (length (data_rows img) ≤ 8)%nat.
Proof.
  unfold SupportOverview.create_support_overview_report.
  destruct (SupportOverview.subdomain_scores payload) as [scores|] eqn:Escores;
    [|discriminate].
  unfold mbind, result_bind, mret, result_ret. intros [= <-].
  set (recs := SupportOverview.support_recommendations scores).
  assert (Hrows : data_rows
      match recs with
      | [] => Congratulations SupportOverview.congratulations
      | _ :: _ => Table SupportOverview.headers (SupportOverview.draw_row <$> recs)
      end = SupportOverview.draw_row <$> recs) by (by destruct recs).
  rewrite Hrows. clear Hrows.
  assert (Hnames : SupportOverview.sup_subdomain ∘ SupportOverview.row_rec
                     <$> (SupportOverview.draw_row <$> recs)
                   = SupportOverview.sup_subdomain <$> recs).
  { rewrite <- list_fmap_compose. by apply list_fmap_ext. }
  assert (Heach : Forall (λ r,
      1 ≤ SupportOverview.sup_score r ≤ 3
      ∧ SupportOverview.sup_subdomain r ∈ SupportOverview.field_mapping.*2
      ∧ SupportOverview.support_mapping
          !! (SupportOverview.sup_subdomain r, SupportOverview.sup_score r)
        = Some {| SupportOverview.support_type := SupportOverview.sup_support_type r;
                  SupportOverview.description := SupportOverview.sup_description r |})
    recs).
  { apply list.Forall_forall. intros r Hr.
    unfold recs, SupportOverview.support_recommendations in Hr.
    apply list_elem_of_omap in Hr as ([sd sc] & _ & Hrec).
    unfold SupportOverview.recommend in Hrec.
    destruct (sc <=? 3); [|discriminate].
    destruct (SupportOverview.support_mapping !! (sd, sc)) as [e|] eqn:Elook;
      [|discriminate].
    cbn [mbind option_bind] in Hrec. injection Hrec as <-.
    cbn [SupportOverview.sup_score SupportOverview.sup_subdomain
         SupportOverview.sup_support_type SupportOverview.sup_description].
    split; [by eapply support_lookup_score|].
    split; [by eapply support_key_known|].
    rewrite Elook. by destruct e. }
  split; [|split].
  - apply Forall_fmap. eapply list.Forall_impl; [exact Heach|].
    intros r (H1 & H2 & H3).
    cbn [SupportOverview.row_rec SupportOverview.draw_row].
    split; [exact H1|]. split; [exact H2|]. split; [exact H3|reflexivity].
  - rewrite Hnames.
    apply (sublist_NoDup _ _ (support_scores_nodup _ _ Escores)),
      support_recommend_sublist.
  - rewrite length_fmap, <- (length_fmap SupportOverview.sup_subdomain).
    change 8%nat with (length (SupportOverview.field_mapping.*2)).
    apply submseteq_length, NoDup_submseteq.
    + apply (sublist_NoDup _ _ (support_scores_nodup _ _ Escores)),
        support_recommend_sublist.
    + intros sd (r & -> & Hr)%list_elem_of_fmap.
      rewrite list.Forall_forall in Heach. by apply Heach.
Qed.

Lemma support_rows_wellformed_witness :
  ∃ img, SupportOverview.create_support_overview_report payload_one_low = Ok img
         ∧ (length (data_rows img) ≤ 8)%nat.
Proof.
  eexists. split; [vm_compute; reflexivity|].
  refine (proj2 (proj2 (support_rows_wellformed payload_one_low _ _))).
  vm_compute. reflexivity.
Defined.

(** *** The subdomain table and the radar chart *)

Lemma mapM_scores {A B : Type} (payload : payload_t) (field : A → pystr)
    (f : A → result B) (build : A → Z → B) (score : B → Z) (l : list A) :
  (∀ x, f x = n ← py_int (payload_get payload (field x) (JInt 0)); mret (build x n)) →
  (∀ x n, score (build x n) = n) →
  fmap (M := list) score <$> mapM f l = numeric_scores payload (field <$> l).
Proof.
  intros Hf Hscore. unfold numeric_scores.
  induction l as [|x l IH]; [reflexivity|].
  rewrite fmap_cons. cbn [mapM]. rewrite Hf.
  destruct (py_int (payload_get payload (field x) (JInt 0))) as [n|e]; [|reflexivity].
  cbn [mbind result_bind mret result_ret].
  destruct (mapM f l) as [rows|e]; destruct (mapM _ (field <$> l)) as [ns|e'];
    cbn in IH |- *; try discriminate; [|done].
  injection IH as <-. by rewrite Hscore.
Qed.

Lemma numeric_scores_length (payload : payload_t) fields scores :
  numeric_scores payload fields = Ok scores → length scores = length fields.
Proof.
  unfold numeric_scores. revert scores.
  induction fields as [|f fields IH]; intros scores; cbn [mapM].
  - by intros [= <-].
  - destruct (py_int _) as [n|]; [|discriminate]. cbn [mbind result_bind].
    destruct (mapM _ fields) as [ns|]; [|discriminate].
    cbn [mbind result_bind mret result_ret]. intros [= <-].
    cbn [length]. f_equal. by apply IH.
Qed.

Theorem table_and_radar_show_same_scores (payload : payload_t) :
  fmap (M := list) snd <$> create_domain_subdomain_report payload
  = numeric_scores payload numeric_field_names
  ∧ fmap (M := list) snd <$> create_spider_chart_report payload
    = numeric_scores payload numeric_field_names
  ∧ (∀ scores, numeric_scores payload numeric_field_names = Ok scores →
       length scores = 8%nat).
Proof.
  split; [|split].
  - unfold create_domain_subdomain_report.
    apply (mapM_scores payload snd _ (λ x n, (x.1.1, x.1.2, n)) snd subdomain_fields);
      [|intros; reflexivity].
    intros [[domain subdomain] field]. reflexivity.
  - unfold create_spider_chart_report.
    assert (numeric_field_names = snd <$> spider_fields) as ->
      by (vm_compute; reflexivity).
    apply (mapM_scores payload snd _ (λ x n, (x.1, n)) snd spider_fields);
      [|intros; reflexivity].
    intros [subdomain field]. reflexivity.
  - intros scores Hs. by apply numeric_scores_length in Hs.
Qed.

(** *** The maturity chart *)

Lemma sum_scores_app l1 l2 : sum_scores (l1 ++ l2) = sum_scores l1 + sum_scores l2.
Proof. unfold sum_scores. induction l1 as [|x l1 IH]; cbn [foldr app]; lia. Qed.

Lemma listed_scores_cons k l d :
  sum_scores (listed_scores ((k, l) :: d))
  = sum_scores l.*2 + sum_scores (listed_scores d).
Proof.
  unfold listed_scores. rewrite fmap_cons. cbn [snd mjoin list_join].
  by rewrite fmap_app, sum_scores_app.
Qed.

Lemma listed_scores_set (domain subdomain : pystr) (score : Z)
    (d : list (pystr * list (pystr * Z))) :
  sum_scores (listed_scores
    (dict_set domain (default [] (dict_get domain d) ++ [(subdomain, score)]) d))
  = sum_scores (listed_scores d) + score.
Proof.
  induction d as [|[k l] d IH].
  - cbn. lia.
  - cbn [dict_get dict_set]. destruct (decide (k = domain)) as [->|Hne].
    + cbn [default from_option id]. rewrite !listed_scores_cons.
      rewrite fmap_app, sum_scores_app. cbn. lia.
    + rewrite !listed_scores_cons, IH. lia.
Qed.

Lemma breakdown_loop_scores (payload : payload_t)
    (fields : list (pystr * pystr * pystr)) (total : Z)
    (acc : list (pystr * list (pystr * Z))) :
  match breakdown_loop payload fields total acc,
        numeric_scores payload fields.*2 with
  | Ok (total', acc'), Ok scores =>
      total' = total + sum_scores scores
      ∧ sum_scores (listed_scores acc')
        = sum_scores (listed_scores acc) + sum_scores scores
  | Raise e, Raise e' => e = e'
  | _, _ => False
  end.
Proof.
  revert total acc. unfold numeric_scores.
  induction fields as [|[[domain subdomain] field] fields IH]; intros total acc.
  - cbn. lia.
  - rewrite fmap_cons. cbn [snd mapM breakdown_loop]. unfold payload_get.
    destruct (payload !! field) as [v|]; cbn [default from_option id].
    + destruct (py_int v) as [n|e]; cbn [mbind result_bind]; [|reflexivity].
      specialize (IH (total + n)
        (dict_set domain (default [] (dict_get domain acc) ++ [(subdomain, n)]) acc)).
      destruct (breakdown_loop _ _ _ _) as [[total' acc']|e1];
        destruct (mapM _ _) as [scores|e2]; cbn [mbind result_bind mret result_ret];
        try done.
      rewrite listed_scores_set in IH. unfold sum_scores in *. cbn [foldr]. lia.
    + cbn [py_int mbind result_bind]. specialize (IH total acc).
      destruct (breakdown_loop _ _ _ _) as [[total' acc']|e1];
        destruct (mapM _ _) as [scores|e2]; cbn [mbind result_bind mret result_ret];
        done.
Qed.

Lemma current_phase_valid (total : Z) : is_Some (phases !! current_phase total).
Proof. unfold current_phase. repeat case_match; by eexists. Qed.

Theorem breakdown_total_is_sum_of_scores (payload : payload_t) :
  match create_score_breakdown_chart payload,
        numeric_scores payload numeric_field_names with
  | Ok chart, Ok scores =>
      total_score chart = sum_scores scores
      ∧ sum_scores (listed_scores (domain_scores chart)) = total_score chart
      ∧ current_phase_idx chart = current_phase (total_score chart)
      ∧ is_Some (phases !! current_phase_idx chart)
  | Raise e, Raise e' => e = e'
  | _, _ => False
  end.
Proof.
  unfold create_score_breakdown_chart, numeric_field_names.
  pose proof (breakdown_loop_scores payload subdomain_fields 0 []) as H.
  destruct (breakdown_loop _ _ _ _) as [[total acc]|e1];
    destruct (numeric_scores _ _) as [scores|e2];
    cbn [mbind result_bind mret result_ret]; try exact H.
  cbn [total_score domain_scores current_phase_idx].
  destruct H as [Htotal Hsum].
  change (sum_scores (listed_scores [])) with 0 in Hsum.
  split; [lia|]. split; [lia|]. split; [reflexivity|apply current_phase_valid].
Qed.

(** *** Totals outside 0..40, and a missing total *)

Theorem phase_outside_range (T : Z) :
  (T < 0 →
     transitiefase_of T = py "Onbekend"
     ∧ phase_name <$> phases !! current_phase T = Some (py "Startfase"))
  ∧ (40 < T →
       transitiefase_of T = py "Onbekend"
       ∧ phase_name <$> phases !! current_phase T = Some (py "Voorloper")).
Proof.
  split; intros HT.
  - split; [apply transitiefase_onbekend; lia|].
    unfold current_phase. repeat (case_match; try lia). reflexivity.
  - split; [apply transitiefase_onbekend; lia|].
    unfold current_phase. repeat (case_match; try lia). reflexivity.
Qed.

Theorem missing_total_sum_defaults (repr_other : jvalue → pystr)
    (report_date : pystr) (payload : payload_t) (v : replacement_values) :
  payload !! py "Total_Sum" = None →
  prepare_values repr_other report_date payload = Ok v →
  transitiefase v = py "Startfase"
  ∧ total_sum v = JStr (py "0")
  ∧ (py "{{totaalscore}}", JStr (py "0"))
      ∈ mjoin (slide_replacements repr_other v).*2.
Proof.
  intros Hmissing. unfold prepare_values, payload_get. rewrite Hmissing.
  cbn [default from_option id].
  assert (get_transitiefase (JStr (py "0")) = Ok (py "Startfase")) as ->
    by (vm_compute; reflexivity).
  cbn [mbind result_bind].
  destruct (get_lowest_scoring_domains payload) as [low|]; [|discriminate].
  cbn [mbind result_bind mret result_ret]. intros [= <-].
  cbn [transitiefase total_sum]. split; [reflexivity|]. split; [reflexivity|].
  unfold slide_replacements.
  cbn [fmap list_fmap snd mjoin list_join app total_sum py_str].
  do 4 right. left.
Qed.

Lemma missing_total_sum_defaults_witness :
  ∃ v, prepare_values (λ _, []) (py "01-02-2025") payload_two_low = Ok v
       ∧ transitiefase v = py "Startfase".
Proof.
  eexists. split; [vm_compute; reflexivity|].
  refine (proj1 (missing_total_sum_defaults (λ _, []) (py "01-02-2025")
                   payload_two_low _ _ _)).
  - vm_compute. reflexivity.
  - vm_compute. reflexivity.
Defined.

(** *** What the two passes over the slides change *)

Section SlidesAfterSteps.

Context {image : Type}.
Implicit Types (p : list (slide image)) (f : slide image → result (slide image)).
Implicit Types (steps : list (nat * (slide image → result (slide image)))).

Lemma on_slide_lookup k f p p' :
  on_slide k f p = Ok p' →
  ∃ s s', p !! k = Some s ∧ f s = Ok s' ∧ p' = <[k := s']> p.
Proof.
  unfold on_slide. destruct (p !! k) as [s|]; [|discriminate].
  destruct (f s) as [s'|] eqn:E; [|discriminate].
  cbn [mbind result_bind mret result_ret]. intros [= <-]. by exists s, s'.
Qed.

(** With distinct target slides, a successful guarded run leaves on each
    target slide the result of that slide's step and leaves every other slide
    as it was. *)
Lemma guarded_steps_slides steps p p' :
  NoDup steps.*1 →
  guarded_steps steps p = Ok p' →
  length p' = length p
  ∧ ∀ j s, p !! j = Some s →
      (∀ f, (j, f) ∈ steps → ∃ s', p' !! j = Some s' ∧ f s = Ok s')
      ∧ (j ∉ steps.*1 → p' !! j = Some s).
Proof.
  revert p. induction steps as [|[k f] steps IH]; intros p Hnodup; cbn [guarded_steps].
  { intros [= <-]. split; [done|]. intros j s Hj. split; [|done].
    intros f Hin. by apply elem_of_nil in Hin. }
  rewrite fmap_cons in Hnodup. cbn [fst] in Hnodup.
  apply list.NoDup_cons in Hnodup as [Hk Hnodup].
  destruct (if_slide k f p) as [p1|] eqn:E1; [|discriminate].
  cbn [mbind result_bind]. intros Hrest.
  destruct (IH p1 Hnodup Hrest) as [Hlen Hslides].
  pose proof (if_slide_length _ _ _ _ E1) as Hlen1.
  split; [congruence|]. intros j s Hj.
  assert (Hjlt : (j < length p)%nat) by (by eapply lookup_lt_Some).
  unfold if_slide in E1.
  destruct (decide (j = k)) as [->|Hne].
  - apply Nat.ltb_lt in Hjlt. rewrite Hjlt in E1.
    apply on_slide_lookup in E1 as (s0 & s1 & Hs0 & Hf & ->).
    rewrite Hj in Hs0. injection Hs0 as <-.
    assert (Hp1 : <[k := s1]> p !! k = Some s1).
    { apply list_lookup_insert_eq. by apply Nat.ltb_lt. }
    destruct (Hslides k s1 Hp1) as [_ Hother]. split.
    + intros f' [[= <-]|Hin]%elem_of_cons.
      * exists s1. split; [by apply Hother|done].
      * exfalso. apply Hk. apply list_elem_of_fmap. by exists (k, f').
    + intros Hnot. exfalso. apply Hnot. rewrite fmap_cons. left.
  - assert (Hp1 : p1 !! j = Some s).
    { destruct (k <? length p)%nat.
      - apply on_slide_lookup in E1 as (s0 & s1 & Hs0 & Hf & ->).
        by rewrite list_lookup_insert_ne.
      - by injection E1 as <-. }
    destruct (Hslides j s Hp1) as [Hsteps Hother]. split.
    + intros f' [[= -> _]|Hin]%elem_of_cons; [done|]. by apply Hsteps.
    + intros Hnot. apply Hother. intros Hin. apply Hnot. rewrite fmap_cons. by right.
Qed.

End SlidesAfterSteps.

(** Each placement step appends its pictures to the shapes of its slide. *)
Lemma chart_step_appends float_of_str payload k f (s s' : slide image) :
  (k, f) ∈ chart_steps float_of_str payload →
  f s = Ok s' →
  ∃ added, shapes s' = shapes s ++ added
           ∧ Forall is_picture added
           ∧ length added = pictures_placed k.
Proof.
  unfold chart_steps. intros Hin.
  repeat (apply elem_of_cons in Hin as [[= -> ->]|Hin]); [..|by apply elem_of_nil in Hin].
  - unfold add_score_breakdown_to_slide4.
    destruct (create_score_breakdown_chart payload) as [chart|]; [|discriminate].
    intros [= <-]. eexists. split; [reflexivity|]. split; [|reflexivity].
    by repeat constructor.
  - unfold add_domain_scores_chart.
    destruct (calculate_domain_data _ _) as [data|]; [|discriminate].
    cbn [mbind result_bind].
    destruct (create_domain_scores_table _) as [chart|]; [|discriminate].
    intros [= <-]. eexists. split; [reflexivity|]. split; [|reflexivity].
    by repeat constructor.
  - unfold add_detailed_reports_to_slide6.
    destruct (create_domain_subdomain_report _) as [report|]; [|discriminate].
    cbn [mbind result_bind].
    destruct (create_spider_chart_report _) as [chart|]; [|discriminate].
    intros [= <-]. cbn [add_picture shapes]. rewrite <- app_assoc.
    eexists. split; [reflexivity|]. split; [|reflexivity].
    by repeat constructor.
  - unfold add_concrete_recommendations_to_slide7.
    destruct (Recommendations.create_concrete_recommendations_report _) as [chart|];
      [|discriminate].
    intros [= <-]. eexists. split; [reflexivity|]. split; [|reflexivity].
    by repeat constructor.
  - unfold add_support_overview_to_slide8.
    destruct (SupportOverview.create_support_overview_report _) as [chart|];
      [|discriminate].
    intros [= <-]. eexists. split; [reflexivity|]. split; [|reflexivity].
    by repeat constructor.
Qed.

Lemma chart_steps_indices float_of_str payload :
  (chart_steps float_of_str payload).*1 = [3; 4; 5; 6; 7]%nat.
Proof. reflexivity. Qed.

Theorem charts_only_append_pictures (float_of_str : pystr → option pyfloat)
    (p p' : presentation image) (payload : payload_t) :
  add_charts_to_slides float_of_str p payload = Ok p' →
  length p' = length p
  ∧ ∀ j s, p !! j = Some s →
      ∃ s' added,
        p' !! j = Some s'
        ∧ shapes s' = shapes s ++ added
        ∧ Forall is_picture added
        ∧ length added = pictures_placed j.
Proof.
  rewrite add_charts_guarded. intros Hrun.
  assert (Hnodup : NoDup (chart_steps float_of_str payload).*1).
  { rewrite chart_steps_indices. apply (bool_decide_unpack _). vm_compute. exact I. }
  destruct (guarded_steps_slides _ _ _ Hnodup Hrun) as [Hlen Hslides].
  split; [exact Hlen|]. intros j s Hj.
  destruct (Hslides j s Hj) as [Hstep Hother].
  destruct (decide (j ∈ (chart_steps float_of_str payload).*1)) as [Hin|Hnot].
  - apply list_elem_of_fmap in Hin as ([k f] & -> & Hin). cbn [fst] in *.
    destruct (Hstep f Hin) as (s' & Hs' & Hf).
    destruct (chart_step_appends _ _ _ _ _ _ Hin Hf) as (added & ? & ? & ?).
    by exists s', added.
  - exists s, []. rewrite app_nil_r. repeat split; [by apply Hother|constructor|].
    rewrite chart_steps_indices in Hnot.
    do 8 (destruct j as [|j];
          [try reflexivity; exfalso; apply Hnot; repeat constructor|]).
    reflexivity.
Qed.

Lemma mapM_Forall2 {A B : Type} (f : A → result B) (l : list A) (l' : list B) :
  mapM f l = Ok l' → Forall2 (λ x y, f x = Ok y) l l'.
Proof.
  revert l'. induction l as [|x l IH]; intros l'; cbn [mapM].
  - intros [= <-]. constructor.
  - destruct (f x) as [y|] eqn:E; [|discriminate]. cbn [mbind result_bind].
    destruct (mapM f l) as [ys|]; [|discriminate].
    cbn [mbind result_bind mret result_ret]. intros [= <-].
    constructor; [exact E|by apply IH].
Qed.

Lemma replace_in_shape_kind {image : Type} replacements (sh sh' : shape image) :
  replace_in_shape replacements sh = Ok sh' → same_kind sh sh'.
Proof.
  destruct sh as [ps|text|img r|]; cbn [replace_in_shape].
  - destruct (mapM _ ps) as [ps'|] eqn:E; [|discriminate].
    cbn [fmap result_fmap]. intros [= <-]. cbn [same_kind].
    apply mapM_Forall2 in E. eapply list.Forall2_impl; [exact E|].
    intros par par'. unfold replace_in_paragraph.
    destruct (substitute_paragraph _ _ _ _) as [[text [|]]|]; [| |discriminate];
      cbn [mbind result_bind mret result_ret]; intros [= <-]; [by right|by left].
  - destruct (substitute_plain _ _) as [new_text|]; [|discriminate].
    cbn [mbind result_bind mret result_ret]. by destruct (decide _); intros [= <-].
  - by intros [= <-].
  - by intros [= <-].
Qed.

Lemma replace_in_slide_kind {image : Type} replacements (s s' : slide image) :
  replace_in_slide replacements s = Ok s' →
  Forall2 same_kind (shapes s) (shapes s').
Proof.
  unfold replace_in_slide.
  destruct (mapM _ (shapes s)) as [shapes'|] eqn:E; [|discriminate].
  cbn [mbind result_bind mret result_ret]. intros [= <-]. cbn [shapes].
  apply mapM_Forall2 in E. eapply list.Forall2_impl; [exact E|].
  intros sh sh'. apply replace_in_shape_kind.
Qed.

Lemma same_kind_refl {image : Type} (sh : shape image) : same_kind sh sh.
Proof.
  destruct sh as [ps|text|img r|]; cbn [same_kind]; try done.
  apply Forall2_same_length_lookup_2; [done|]. intros i x y Hx Hy. left. congruence.
Qed.

Theorem substitution_keeps_slide_structure (repr_other : jvalue → pystr)
    (report_date : pystr) (p p' : presentation image) (payload : payload_t) :
  replace_placeholders repr_other report_date p payload = Ok p' →
  length p' = length p
  ∧ ∀ j s, p !! j = Some s →
      ∃ s', p' !! j = Some s'
            ∧ Forall2 same_kind (shapes s) (shapes s')
            ∧ (j ∉ [0; 3; 8]%nat → s' = s).
Proof.
  unfold replace_placeholders.
  destruct (prepare_values _ _ _) as [v|]; [|discriminate].
  cbn [mbind result_bind]. rewrite process_slides_guarded. intros Hrun.
  assert (Hidx : (substitution_steps (slide_replacements repr_other v)).*1
                 = [0; 3; 8]%nat)
    by reflexivity.
  assert (Hnodup : NoDup (substitution_steps (slide_replacements repr_other v)).*1).
  { rewrite Hidx. apply (bool_decide_unpack _). vm_compute. exact I. }
  destruct (guarded_steps_slides _ _ _ Hnodup Hrun) as [Hlen Hslides].
  split; [exact Hlen|]. intros j s Hj.
  destruct (Hslides j s Hj) as [Hstep Hother]. rewrite Hidx in Hother.
  destruct (decide (j ∈ [0; 3; 8]%nat)) as [Hin|Hnot].
  - rewrite <- Hidx in Hin.
    apply list_elem_of_fmap in Hin as ([k f] & -> & Hin). cbn [fst] in *.
    destruct (Hstep f Hin) as (s' & Hs' & Hf). exists s'.
    split; [exact Hs'|]. split; [|intros Hnot; exfalso; apply Hnot].
    + unfold substitution_steps in Hin.
      apply list_elem_of_fmap in Hin as ([k' r] & [= -> ->] & _).
      by apply replace_in_slide_kind in Hf.
    + rewrite <- Hidx. apply list_elem_of_fmap. by exists (k, f).
  - exists s. split; [by apply Hother|]. split; [|done].
    apply Forall2_same_length_lookup_2; [done|].
    intros i x y Hx Hy. rewrite Hx in Hy. injection Hy as <-. apply same_kind_refl.
Qed.

Lemma charts_only_append_pictures_witness :
  ∃ p', add_charts_to_slides (λ _, None) sample_deck payload_one_low = Ok p'
        ∧ length p' = 9%nat.
Proof.
  eexists. split; [vm_compute; reflexivity|].
  refine (proj1 (charts_only_append_pictures (λ _, None) sample_deck _
                   payload_one_low _)).
  vm_compute. reflexivity.
Defined.

Lemma substitution_keeps_slide_structure_witness :
  ∃ p', replace_placeholders (λ _, []) (py "01-02-2025") sample_deck payload_two_low
        = Ok p'
        ∧ length p' = 9%nat.
Proof.
  eexists. split; [vm_compute; reflexivity|].
  refine (proj1 (substitution_keeps_slide_structure (λ _, []) (py "01-02-2025")
                   sample_deck _ payload_two_low _)).
  vm_compute. reflexivity.
Defined.

(** *** Text without placeholders *)

Lemma mapM_id {A : Type} (f : A → result A) (l : list A) :
  Forall (λ x, f x = Ok x) l → mapM f l = Ok l.
Proof.
  induction 1 as [|x l Hx _ IH]; [reflexivity|].
  cbn [mapM]. rewrite Hx, IH. reflexivity.
Qed.

Lemma substitute_paragraph_unmentioned replacements text new_text needs :
  mentions replacements text = false →
  substitute_paragraph replacements text new_text needs = Ok (new_text, needs).
Proof.
  induction replacements as [|[ph v] replacements IH]; [reflexivity|].
  cbn [mentions existsb substitute_paragraph].
  intros [-> Hrest]%orb_false_elim. by apply IH.
Qed.

Lemma substitute_plain_unmentioned replacements text :
  mentions replacements text = false →
  substitute_plain replacements text = Ok text.
Proof.
  induction replacements as [|[ph v] replacements IH]; [reflexivity|].
  cbn [mentions existsb substitute_plain].
  intros [-> Hrest]%orb_false_elim. by apply IH.
Qed.

Theorem slide_without_placeholders_untouched {image : Type}
    (replacements : list (pystr * jvalue)) (s : slide image) :
  Forall (λ sh, Forall (λ text, mentions replacements text = false) (shape_texts sh))
         (shapes s) →
  replace_in_slide replacements s = Ok s.
Proof.
  intros Hclean. unfold replace_in_slide.
  rewrite (mapM_id (replace_in_shape replacements) (shapes s)).
  - by destruct s.
  - eapply list.Forall_impl; [exact Hclean|].
    intros [paragraphs|text|img r|] Htexts; cbn [replace_in_shape shape_texts] in *;
      try reflexivity.
    + rewrite (mapM_id (replace_in_paragraph replacements) paragraphs); [reflexivity|].
      apply Forall_fmap in Htexts. eapply list.Forall_impl; [exact Htexts|].
      intros par Hpar. unfold replace_in_paragraph.
      rewrite (substitute_paragraph_unmentioned _ _ _ _ Hpar). reflexivity.
    + inversion_clear Htexts as [|? ? Htext _].
      rewrite (substitute_plain_unmentioned _ _ Htext).
      unfold mbind, result_bind, mret, result_ret.
      destruct (decide (text = text)); [reflexivity|congruence].
Qed.

Lemma slide_without_placeholders_untouched_witness :
  replace_in_slide [ (py "{{organisatie}}", JInt 7) ] (sample_slide (py "Inleiding"))
  = Ok (sample_slide (py "Inleiding")).
Proof.
  refine (slide_without_placeholders_untouched _ _ _).
  vm_compute. repeat constructor.
Defined.

(** *** A replacement value that is not a string *)

Lemma substitute_paragraph_result replacements text new_text needs :
  (∃ r, substitute_paragraph replacements text new_text needs = Ok r)
  ∨ substitute_paragraph replacements text new_text needs = Raise TypeError.
Proof.
  revert new_text needs.
  induction replacements as [|[ph v] replacements IH]; intros new_text needs.
  - left. by eexists.
  - cbn [substitute_paragraph]. destruct (contains ph text); [|apply IH].
    destruct v; cbn [replace_value mbind result_bind]; try (by right); apply IH.
Qed.

Lemma substitute_plain_result replacements text :
  (∃ r, substitute_plain replacements text = Ok r)
  ∨ substitute_plain replacements text = Raise TypeError.
Proof.
  revert text. induction replacements as [|[ph v] replacements IH]; intros text.
  - left. by eexists.
  - cbn [substitute_plain]. destruct (contains ph text); [|apply IH].
    destruct v; cbn [replace_value mbind result_bind]; try (by right); apply IH.
Qed.

Lemma substitute_paragraph_type_error replacements placeholder value text new_text needs :
  (placeholder, value) ∈ replacements →
  contains placeholder text = true →
  (∀ v, value ≠ JStr v) →
  substitute_paragraph replacements text new_text needs = Raise TypeError.
Proof.
  intros Hin Hocc Hval. revert new_text needs.
  induction replacements as [|[ph v] replacements IH]; intros new_text needs.
  - by apply elem_of_nil in Hin.
  - cbn [substitute_paragraph]. apply elem_of_cons in Hin as [[= <- <-]|Hin].
    + rewrite Hocc. destruct value as [t|?|?|?| |]; try reflexivity.
      by destruct (Hval t).
    + destruct (contains ph text); [|by apply IH].
      destruct v; cbn [replace_value mbind result_bind]; try reflexivity.
      by apply IH.
Qed.

Lemma mapM_type_error {A B : Type} (f : A → result B) (l : list A) (x : A) :
  (∀ y, (∃ r, f y = Ok r) ∨ f y = Raise TypeError) →
  x ∈ l → f x = Raise TypeError → mapM f l = Raise TypeError.
Proof.
  intros Hf Hin Hx. induction l as [|y l IH]; [by apply elem_of_nil in Hin|].
  cbn [mapM]. apply elem_of_cons in Hin as [<-|Hin].
  - by rewrite Hx.
  - destruct (Hf y) as [[r ->]| ->]; [|reflexivity].
    cbn [mbind result_bind]. by rewrite IH.
Qed.

Lemma mapM_result {A B : Type} (f : A → result B) (l : list A) :
  (∀ y, (∃ r, f y = Ok r) ∨ f y = Raise TypeError) →
  (∃ r, mapM f l = Ok r) ∨ mapM f l = Raise TypeError.
Proof.
  intros Hf. induction l as [|y l IH]; [left; by eexists|].
  cbn [mapM]. destruct (Hf y) as [[r ->]| ->]; [|by right].
  cbn [mbind result_bind]. destruct IH as [[r' ->]| ->]; [left|right]; by eauto.
Qed.

Lemma replace_in_paragraph_result replacements par :
  (∃ r, replace_in_paragraph replacements par = Ok r)
  ∨ replace_in_paragraph replacements par = Raise TypeError.
Proof.
  unfold replace_in_paragraph.
  destruct (substitute_paragraph_result replacements (paragraph_text par)
              (paragraph_text par) false) as [[[t b] ->]| ->]; [left|right].
  - by eexists.
  - reflexivity.
Qed.

Lemma replace_in_shape_result {image : Type} replacements (sh : shape image) :
  (∃ r, replace_in_shape replacements sh = Ok r)
  ∨ replace_in_shape replacements sh = Raise TypeError.
Proof.
  destruct sh as [paragraphs|text|img r|]; cbn [replace_in_shape];
    try (left; by eexists).
  - destruct (mapM_result (replace_in_paragraph replacements) paragraphs
                (replace_in_paragraph_result replacements)) as [[r ->]| ->];
      [left; by eexists|by right].
  - destruct (substitute_plain_result replacements text) as [[r ->]| ->];
      [left; by eexists|by right].
Qed.

Lemma replace_in_slide_type_error {image : Type} replacements placeholder value
    (s : slide image) paragraphs par :
  (placeholder, value) ∈ replacements →
  (∀ v, value ≠ JStr v) →
  TextFrame paragraphs ∈ shapes s →
  par ∈ paragraphs →
  contains placeholder (paragraph_text par) = true →
  replace_in_slide replacements s = Raise TypeError.
Proof.
  intros Hin Hval Hshape Hpar Hocc. unfold replace_in_slide.
  rewrite (mapM_type_error (replace_in_shape replacements) (shapes s)
             (TextFrame paragraphs) (replace_in_shape_result replacements) Hshape);
    [reflexivity|].
  cbn [replace_in_shape].
  rewrite (mapM_type_error (replace_in_paragraph replacements) paragraphs par
             (replace_in_paragraph_result replacements) Hpar); [reflexivity|].
  unfold replace_in_paragraph.
  by rewrite (substitute_paragraph_type_error _ _ _ _ _ _ Hin Hocc Hval).
Qed.

Theorem non_string_organization_is_fatal (repr_other : jvalue → pystr)
    (report_date : pystr) (p : presentation image) (payload : payload_t)
    (value : jvalue) (v : replacement_values) (s : slide image)
    (paragraphs : list paragraph) (par : paragraph) :
  payload !! py "Organization" = Some value →
  (∀ text, value ≠ JStr text) →
  prepare_values repr_other report_date payload = Ok v →
  p !! 0%nat = Some s →
  TextFrame paragraphs ∈ shapes s →
  par ∈ paragraphs →
  contains (py "{{organisatie}}") (paragraph_text par) = true →
  replace_placeholders repr_other report_date p payload = Raise TypeError.
Proof.
  intros Hlook Hval Hprep Hs Hshape Hpar Hocc.
  unfold replace_placeholders. rewrite Hprep.
  assert (organization v = value) as Horg.
  { unfold prepare_values in Hprep.
    destruct (get_transitiefase _) as [fase|]; [|discriminate].
    destruct (get_lowest_scoring_domains _) as [lowest|]; [|discriminate].
    unfold mbind, result_bind, mret, result_ret in Hprep.
    injection Hprep as <-. cbn [organization].
    unfold payload_get. by rewrite Hlook. }
  unfold mbind at 1. unfold result_bind at 1.
  unfold slide_replacements. cbn [process_slides].
  unfold if_slide.
  assert ((0 <? length p)%nat = true) as ->.
  { apply Nat.ltb_lt. destruct p; [discriminate|cbn [length]; lia]. }
  unfold on_slide. rewrite Hs.
  rewrite (replace_in_slide_type_error _ (py "{{organisatie}}") value s paragraphs par);
    [reflexivity| |exact Hval|exact Hshape|exact Hpar|exact Hocc].
  rewrite Horg. apply list_elem_of_here.
Qed.

Lemma non_string_organization_is_fatal_witness :
  replace_placeholders (λ _, []) (py "01-02-2025") sample_deck
    payload_numeric_organization = Raise TypeError.
Proof.
  refine (non_string_organization_is_fatal (λ _, []) (py "01-02-2025") sample_deck
            payload_numeric_organization (JInt 2000) _
            (sample_slide (py "{{organisatie}} {{rapport_datum}} {{respondent_naam}}"))
            _ _ _ _ _ _ _ _ _).
  - vm_compute. reflexivity.
  - intros text. discriminate.
  - vm_compute. reflexivity.
  - reflexivity.
  - apply list_elem_of_here.
  - apply list_elem_of_here.
  - vm_compute. reflexivity.
Defined.

(** *** What [clean_text] returns *)

Lemma starts_with_prefix old s :
  starts_with old s = true ↔ ∃ b, s = old ++ b.
Proof.
  revert s. induction old as [|a old IH]; intros s; cbn [starts_with].
  - split; [intros _; by exists s|done].
  - destruct s as [|c s].
    + split; [done|]. intros [b Hb]. discriminate.
    + rewrite andb_true_iff, IH, N.eqb_eq. split.
      * intros [-> [b ->]]. by exists b.
      * intros [b [= -> ->]]. split; [done|]. by exists b.
Qed.

Lemma contains_infix old s :
  contains old s = true ↔ ∃ a b, s = a ++ old ++ b.
Proof.
  induction s as [|c s IH]; cbn [contains].
  - rewrite orb_false_r, starts_with_prefix. split.
    + intros [b Hb]. by exists [], b.
    + intros [a [b Hab]]. symmetry in Hab.
      apply app_eq_nil in Hab as [-> Hab]. exists b. by rewrite Hab.
  - rewrite orb_true_iff, IH, starts_with_prefix. split.
    + intros [[b Hb]|[a [b Hab]]].
      * by exists [], b.
      * exists (c :: a), b. by rewrite Hab.
    + intros [[|a0 a] [b Hab]].
      * left. by exists b.
      * right. injection Hab as -> ->. by exists a, b.
Qed.

Lemma contains_infix_of old s a b :
  contains old s = true → contains old (a ++ s ++ b) = true.
Proof.
  rewrite !contains_infix. intros [a' [b' ->]].
  exists (a ++ a'), (b' ++ b). by rewrite <- !app_assoc.
Qed.

Lemma lstrip_suffix s : ∃ a, s = a ++ lstrip s.
Proof.
  induction s as [|c s [a IH]]; [by exists []|]. cbn [lstrip].
  destruct (isspace c); [|by exists []].
  exists (c :: a). by rewrite IH at 1.
Qed.

Lemma strip_infix s : ∃ a b, s = a ++ strip s ++ b.
Proof.
  unfold strip, rstrip.
  destruct (lstrip_suffix s) as [a Ha].
  destruct (lstrip_suffix (rev (lstrip s))) as [b Hb].
  exists a, (rev b). rewrite Ha at 1. f_equal.
  rewrite <- rev_app_distr, <- Hb. by rewrite rev_involutive.
Qed.

Lemma lstrip_starts_clean s : starts_clean (lstrip s).
Proof.
  induction s as [|c s IH]; [done|]. cbn [lstrip].
  by destruct (isspace c) eqn:E.
Qed.

Lemma lstrip_fixed s : starts_clean s → lstrip s = s.
Proof. destruct s as [|c s]; [done|]. cbn. by intros ->. Qed.

Lemma starts_clean_prefix s r : s ≠ [] → starts_clean (s ++ r) → starts_clean s.
Proof. by destruct s. Qed.

Lemma strip_strip s : strip (strip s) = strip s.
Proof.
  unfold strip, rstrip.
  set (y := lstrip s). set (z := lstrip (rev y)).
  assert (starts_clean (rev z)) as Hrz.
  { destruct (lstrip_suffix (rev y)) as [a Ha]. fold z in Ha.
    destruct (decide (rev z = [])) as [->|Hne]; [done|].
    apply (starts_clean_prefix _ (rev a)); [done|].
    rewrite <- rev_app_distr, <- Ha, rev_involutive. apply lstrip_starts_clean. }
  rewrite (lstrip_fixed (rev z)) by done.
  rewrite rev_involutive. by rewrite (lstrip_fixed z) by apply lstrip_starts_clean.
Qed.

Lemma contains_strip old s :
  contains old s = false → contains old (strip s) = false.
Proof.
  intros Hs. destruct (contains old (strip s)) eqn:E; [|done].
  destruct (strip_infix s) as [a [b Hab]].
  apply (contains_infix_of _ _ a b) in E. rewrite <- Hab in E. congruence.
Qed.

Lemma elem_of_replace_from old new skip s c :
  c ∈ replace_from old new skip s → c ∈ new ∨ c ∈ s.
Proof.
  revert skip. induction s as [|d s IH]; intros skip; cbn [replace_from].
  - intros H. by apply elem_of_nil in H.
  - destruct skip as [|k].
    + destruct (starts_with old (d :: s)).
      * intros [H|H%IH]%elem_of_app; [by left|].
        destruct H; [by left|right; by apply elem_of_cons; right].
      * intros [->|H%IH]%elem_of_cons; [right; by apply elem_of_cons; left|].
        destruct H; [by left|right; by apply elem_of_cons; right].
    + intros H%IH. destruct H; [by left|right; by apply elem_of_cons; right].
Qed.

Lemma elem_of_replace_while fuel old new s c :
  c ∈ replace_while fuel old new s → c ∈ new ∨ c ∈ s.
Proof.
  revert s. induction fuel as [|fuel IH]; intros s; cbn [replace_while]; [by right|].
  destruct (contains old s); [|by right].
  intros [H|H%elem_of_replace_from]%IH; [by left|done].
Qed.

Lemma elem_of_strip s c : c ∈ strip s → c ∈ s.
Proof.
  intros H. destruct (strip_infix s) as [a [b ->]].
  apply elem_of_app; right. by apply elem_of_app; left.
Qed.

Lemma split_fields_no_sep sep s : Forall (λ l, sep ∉ l) (split sep s).
Proof.
  induction s as [|c s IH]; cbn [split].
  - repeat constructor. apply not_elem_of_nil.
  - destruct (N.eqb_spec c sep) as [->|Hne].
    + constructor; [apply not_elem_of_nil|done].
    + destruct (split sep s) as [|w ws].
      * repeat constructor. intros [H|H%elem_of_nil]%elem_of_cons; congruence.
      * inversion_clear IH as [|? ? Hw Hws]. constructor; [|done].
        intros [H|H]%elem_of_cons; [congruence|done].
Qed.

Lemma split_no_sep sep x : sep ∉ x → split sep x = [x].
Proof.
  induction x as [|c x IH]; [done|]. intros Hx. cbn [split].
  destruct (N.eqb_spec c sep) as [->|Hne].
  - destruct Hx. by apply elem_of_cons; left.
  - rewrite IH; [done|]. intros H. apply Hx. by apply elem_of_cons; right.
Qed.

Lemma split_app_sep sep x rest :
  sep ∉ x → split sep (x ++ sep :: rest) = x :: split sep rest.
Proof.
  induction x as [|c x IH]; intros Hx.
  - cbn [app split]. by rewrite N.eqb_refl.
  - cbn [app split]. destruct (N.eqb_spec c sep) as [->|Hne].
    + destruct Hx. by apply elem_of_cons; left.
    + rewrite IH; [done|]. intros H. apply Hx. by apply elem_of_cons; right.
Qed.

Lemma split_join sep ls :
  ls ≠ [] → Forall (λ l, sep ∉ l) ls → split sep (join [sep] ls) = ls.
Proof.
  induction ls as [|x ls IH]; [done|]. intros _ Hall.
  inversion_clear Hall as [|? ? Hx Hls].
  destruct ls as [|y ls].
  - cbn [join]. by apply split_no_sep.
  - rewrite join_cons by done. cbn [app].
    rewrite split_app_sep by done. by rewrite IH.
Qed.

Lemma clean_line_no_newline line : NEWLINE ∉ line → NEWLINE ∉ clean_line line.
Proof.
  intros Hline H. unfold clean_line in H.
  apply elem_of_strip, elem_of_replace_while in H as [H|H]; [|done].
  apply elem_of_cons in H as [H|H%elem_of_nil]; [discriminate|done].
Qed.

(** Each line of the cleaned text has neither white space at its ends nor
    two spaces in a row. *)
Theorem clean_text_lines_are_clean (text : pystr) :
  Forall (λ line, strip line = line ∧ contains [SPACE; SPACE] line = false)
         (split NEWLINE (clean_text text)).
Proof.
  unfold clean_text.
  set (cleaned := replace_while _ _ _ _).
  rewrite split_join.
  - apply Forall_fmap, list.Forall_forall. intros line _. cbn [compose].
    unfold clean_line. split; [apply strip_strip|].
    apply contains_strip, replace_while_done; cbn [length]; lia.
  - intros H%fmap_nil_inv. by apply split_not_nil in H.
  - apply Forall_fmap. eapply list.Forall_impl; [apply split_fields_no_sep|].
    intros line Hline. by apply clean_line_no_newline.
Qed.

Lemma replace_absent old new s : contains old s = false → replace old new s = s.
Proof.
  unfold replace. induction s as [|c s IH]; [done|]. cbn [contains replace_from].
  intros [-> H]%orb_false_elim. by rewrite IH.
Qed.

Lemma replace_while_absent fuel old new s :
  contains old s = false → replace_while fuel old new s = s.
Proof. intros H. destruct fuel; cbn [replace_while]; [done|]. by rewrite H. Qed.

Lemma fmap_fixed {A : Type} (f : A → A) (l : list A) :
  Forall (λ x, f x = x) l → f <$> l = l.
Proof.
  induction 1 as [|x l Hx _ IH]; [done|]. cbn [fmap list_fmap].
  by rewrite Hx, IH.
Qed.

(** Text that holds no encoded character, no three line breaks in a row, and
    only lines that are stripped and single-spaced is returned as it is. *)
Theorem clean_text_keeps_clean_text (text : pystr) :
  Forall (λ '(encoded_char, _), contains encoded_char text = false) text_replacements →
  contains [NEWLINE; NEWLINE; NEWLINE] text = false →
  Forall (λ line, strip line = line ∧ contains [SPACE; SPACE] line = false)
         (split NEWLINE text) →
  clean_text text = text.
Proof.
  intros Henc Hbreaks Hlines. unfold clean_text.
  assert (fold_left (λ cleaned '(encoded_char, actual_char),
                       replace encoded_char actual_char cleaned)
                    text_replacements text = text) as ->.
  { induction text_replacements as [|[enc act] l IH]; [done|].
    inversion_clear Henc as [|? ? Hhead Htail]. cbn [fold_left].
    rewrite replace_absent by done. by apply IH. }
  rewrite replace_while_absent by done.
  transitivity (join [NEWLINE] (split NEWLINE text)); [|apply join_split].
  f_equal. apply fmap_fixed.
  eapply list.Forall_impl; [exact Hlines|].
  intros line [Hstrip Hspaces]. unfold clean_line.
  rewrite replace_while_absent by done. exact Hstrip.
Qed.

Lemma clean_text_keeps_clean_text_witness :
  clean_text (py "Structuur en processen" ++ [NEWLINE] ++ py "Uitkomsten")
  = py "Structuur en processen" ++ [NEWLINE] ++ py "Uitkomsten".
Proof.
  refine (clean_text_keeps_clean_text _ _ _ _).
  - vm_compute. repeat constructor.
  - vm_compute. reflexivity.
  - vm_compute. repeat constructor.
Defined.

(** *** Wrapping keeps the text *)

Lemma join_merge sep l a b r :
  join sep (l ++ (a ++ sep ++ b) :: r) = join sep (l ++ a :: b :: r).
Proof.
  induction l as [|x l IH].
  - cbn [app]. destruct r as [|y r]; [reflexivity|].
    rewrite !join_cons by done. by rewrite <- !app_assoc.
  - rewrite <- !app_comm_cons, !join_cons, IH; [done| |]; by destruct l.
Qed.

Lemma wrap_loop_join limit words current wrapped :
  Forall (λ word, word ≠ []) words →
  join [SPACE]
    (if nonempty (wrap_loop limit words current wrapped).2
     then (wrap_loop limit words current wrapped).1
            ++ [(wrap_loop limit words current wrapped).2]
     else (wrap_loop limit words current wrapped).1)
  = join [SPACE]
      ((if nonempty current then wrapped ++ [current] else wrapped) ++ words).
Proof.
  intros Hwords. revert current wrapped.
  induction Hwords as [|word words Hword _ IH]; intros current wrapped.
  { cbn [wrap_loop fst snd]. by rewrite app_nil_r. }
  apply nonempty_true in Hword as Hne.
  cbn [wrap_loop].
  destruct (nonempty current) eqn:Hcur.
  - destruct (length (current ++ [SPACE] ++ word) <=? limit)%nat.
    + rewrite IH.
      assert (nonempty (current ++ [SPACE] ++ word) = true) as ->
        by (apply nonempty_true; by destruct current).
      rewrite <- !app_assoc. exact (join_merge [SPACE] wrapped current word words).
    + rewrite IH, Hne. by rewrite <- !app_assoc.
  - destruct (length word <=? limit)%nat; rewrite IH, Hne;
      by rewrite <- !app_assoc.
Qed.

(** Wrapping a cell loses nothing: for a text whose words are separated by
    single spaces, the drawn lines joined by spaces are the text again. *)
Theorem wrapped_lines_keep_text (limit : nat) (data : pystr) :
  Forall (λ word, word ≠ []) (split SPACE data) →
  join [SPACE] (cell_lines limit data) = data.
Proof.
  intros Hwords. unfold cell_lines.
  destruct (limit <? length data)%nat; [|reflexivity].
  unfold wrap_words.
  pose proof (wrap_loop_join limit (split SPACE data) [] [] Hwords) as Hjoin.
  destruct (wrap_loop limit (split SPACE data) [] []) as [wrapped current].
  cbn [fst snd nonempty app] in Hjoin. rewrite Hjoin. apply join_split.
Qed.

Lemma wrapped_lines_keep_text_witness :
  join [SPACE] (cell_lines 10 (py "Outcomegericht werken in de regio"))
  = py "Outcomegericht werken in de regio".
Proof.
  refine (wrapped_lines_keep_text 10 _ _).
  vm_compute. repeat constructor; discriminate.
Defined.
